(** * Webscout: the IBM Granite stream decoder and the Litlogger levels

    A shallow embedding of two source files of the repository:

    - [webscout/Litlogger/core/level.py]: the [LogLevel] enumeration, its
      lookup by name [get_level] and its ordering [__lt__];
    - [webscout/Provider/granite.py]: [IBMGranite.ask], whose inner
      generator [for_stream] decodes the lines of a streamed HTTP answer
      and whose [for_non_stream] drains that generator.

    Python values are modelled as the interpreter has them: a [str] is a
    sequence of Unicode code points, an [int] is unbounded, a [dict] is a
    finite map, an exception is a value of an error type carried in a sum. *)

From Stdlib Require Import ZArith NArith List String Ascii Bool Lia.
From Stdlib Require Import DecimalString.
From stdpp Require Import base option list gmap.

Set Warnings "-register-all".
Open Scope Z_scope.

(** ** Python strings *)

Module Py.

(** A Python [str]: the sequence of its code points. *)
Definition pystr := list N.

(** The [str] spelled by an ASCII literal of the source. *)
Definition str (s : string) : pystr :=
  map (fun c => N_of_ascii c) (list_ascii_of_string s).

(** [f"{n}"] for an [int]: its decimal digits. *)
Definition format_int (n : Z) : pystr :=
  str (NilZero.string_of_int (Z.to_int n)).

(** The truth value of a [str] in [if line:]. *)
Definition truthy (s : pystr) : bool :=
  match s with
  | [] => false
  | _ :: _ => true
  end.

(** Upper-casing of one code point, as far as ASCII letters are concerned:
    [a]-[z], and the code points whose full upper-casing is made of ASCII
    letters (dotless i, long s, sharp s, the ff/fi/fl/ffi/ffl/st
    ligatures).  Every other code point stands for itself here: its real
    upper-casing holds a code point outside [A]-[Z] as well, so comparing
    the result with a name made of the letters [A]-[Z] gives the same
    answer. *)
Definition upper_char (c : N) : list N :=
  (if (97 <=? c) && (c <=? 122) then [c - 32]
   else if c =? 305 then [73]
   else if c =? 383 then [83]
   else if c =? 223 then [83; 83]
   else if c =? 64256 then [70; 70]
   else if c =? 64257 then [70; 73]
   else if c =? 64258 then [70; 76]
   else if c =? 64259 then [70; 70; 73]
   else if c =? 64260 then [70; 70; 76]
   else if c =? 64261 then [83; 84]
   else if c =? 64262 then [83; 84]
   else [c])%N.

(** [s.upper()] *)
Definition upper (s : pystr) : pystr := flat_map upper_char s.

(** ** Exceptions

    An exception is its class and [str(e)], the text an f-string prints
    for it.  The classes are those the two files raise or catch; the three
    last ones are the provider errors of [webscout.exceptions]. *)
Inductive exn :=
| RequestException (msg : pystr)
| JSONDecodeError (msg : pystr)
| TypeError (msg : pystr)
| KeyError (msg : pystr)
| IndexError (msg : pystr)
| ValueError (msg : pystr)
| AssertionError (msg : pystr)
| Exception (msg : pystr)
| FailedToGenerateResponseError (msg : pystr)
| ProviderConnectionError (msg : pystr)
| InvalidResponseError (msg : pystr).

(** [str(e)] *)
Definition str_of_exn (e : exn) : pystr :=
  match e with
  | RequestException m | JSONDecodeError m | TypeError m | KeyError m
  | IndexError m | ValueError m | AssertionError m | Exception m
  | FailedToGenerateResponseError m | ProviderConnectionError m
  | InvalidResponseError m => m
  end.

(** A computation that returns a value or raises. *)
Definition result (A : Type) : Type := exn + A.

Definition ret {A} (a : A) : result A := inr a.
Definition raise {A} (e : exn) : result A := inl e.
Definition bind {A B} (m : result A) (k : A -> result B) : result B :=
  match m with
  | inl e => inl e
  | inr a => k a
  end.

End Py.

Notation "'let*' x ':=' m 'in' k" := (Py.bind m (fun x => k))
  (at level 10, x name, m at level 100, k at level 200).

Import Py.

(** ** webscout/Litlogger/core/level.py *)

Module Level.

(** [class LogLevel(Enum)] *)
Inductive LogLevel := DEBUG | INFO | WARNING | ERROR | CRITICAL.

(** The [.value] of a member. *)
Definition value (l : LogLevel) : Z :=
  match l with
  | DEBUG => 10
  | INFO => 20
  | WARNING => 30
  | ERROR => 40
  | CRITICAL => 50
  end.

(** The [.name] of a member. *)
Definition name (l : LogLevel) : pystr :=
  match l with
  | DEBUG => str "DEBUG"
  | INFO => str "INFO"
  | WARNING => str "WARNING"
  | ERROR => str "ERROR"
  | CRITICAL => str "CRITICAL"
  end.

(** The members in definition order. *)
Definition members : list LogLevel := [DEBUG; INFO; WARNING; ERROR; CRITICAL].

(** [LogLevel[key]]: the member of that name; [None] stands for the
    [KeyError] of a name that no member has. *)
Definition getitem (key : pystr) : option LogLevel :=
  find (fun l => bool_decide (name l = key)) members.

(** [LogLevel.get_level] *)
Definition get_level (level_str : pystr) : result LogLevel :=
  match getitem (upper level_str) with
  | Some l => inr l
  | None => inl (ValueError (str "Invalid log level: " ++ level_str))
  end.

(** The ordering operators [<], [<=], [>], [>=]. *)
Inductive cmp_op := Lt | Le | Gt | Ge.

(** What a rich comparison method returns: a truth value, or
    [NotImplemented] when it declines the operand. *)
Inductive richcmp := Answer (b : bool) | NotImplemented.

(** The values a [LogLevel] may be compared with: a level, [None], a
    [bool], an [int], a [str], or an object of another class, given by the
    name of its class and by what its own rich comparison methods answer
    when they are handed a [LogLevel]. *)
Inductive pyvalue :=
| PLevel (l : LogLevel)
| PNone
| PBool (b : bool)
| PInt (z : Z)
| PStr (s : pystr)
| PObject (cls : pystr) (richcompare : cmp_op -> LogLevel -> richcmp).

(** [LogLevel.__lt__] *)
Definition __lt__ (self : LogLevel) (other : pyvalue) : richcmp :=
  match other with
  | PLevel o => Answer (value self <? value o)
  | _ => NotImplemented
  end.

Definition type_name (v : pyvalue) : pystr :=
  match v with
  | PLevel _ => str "LogLevel"
  | PNone => str "NoneType"
  | PBool _ => str "bool"
  | PInt _ => str "int"
  | PStr _ => str "str"
  | PObject cls _ => cls
  end.

(** [other.__gt__(self)], the reflected method the interpreter asks when
    [self.__lt__(other)] answers [NotImplemented]: [None], [bool], [int]
    and [str] decline a [LogLevel], [LogLevel] has no [__gt__] of its own,
    an object of another class answers as its class says. *)
Definition reflected_gt (other : pyvalue) (self : LogLevel) : richcmp :=
  match other with
  | PObject _ richcompare => richcompare Gt self
  | _ => NotImplemented
  end.

(** The expression [self < other]: what [__lt__] answers; when it
    declines, what the reflected [other.__gt__(self)] answers; when that
    declines too, [TypeError]. *)
Definition less (self : LogLevel) (other : pyvalue) : result bool :=
  match __lt__ self other with
  | Answer b => inr b
  | NotImplemented =>
      match reflected_gt other self with
      | Answer b => inr b
      | NotImplemented =>
          inl (TypeError (str "'<' not supported between instances of 'LogLevel' and '"
                            ++ type_name other ++ str "'"))
      end
  end.

(** One of the built-in values [None], [bool], [int], [str]. *)
Definition builtin (v : pyvalue) : bool :=
  match v with
  | PNone | PBool _ | PInt _ | PStr _ => true
  | PLevel _ | PObject _ _ => false
  end.

(** An object whose [__gt__] answers [True] to everything. *)
Definition agreeable : pyvalue := PObject (str "T") (fun _ _ => Answer true).

(** The severity names and their numbers as the specification lists
    them, to compare [LogLevel] with. *)
Definition severity_names : list (pystr * Z) :=
  [ (str "DEBUG", 10); (str "INFO", 20); (str "WARNING", 30);
    (str "ERROR", 40); (str "CRITICAL", 50) ].

(** [c] is the letter [C] of a name, in upper or in lower case. *)
Definition same_letter (c C : N) : Prop :=
  (65 <= C <= 90)%N /\ (c = C \/ c = (C + 32)%N).

(** [s] is the name [NAME] written in some letter case. *)
Definition case_variant (s NAME : pystr) : Prop := Forall2 same_letter s NAME.

End Level.

(** ** json.loads

    The decoder of the standard [json] module, on a [str]: [scan_once],
    [JSONArray], [JSONObject] and [scanstring] in strict mode.  The
    recursion is on a fuel that bounds the number of nested calls; [decode]
    gives twice the length of the text, which the calls cannot use up since
    each one reads a character before it calls again.

    The interpreter's own limits are outside the model: on an integer of
    more than 4300 digits [json.loads] raises [ValueError], on nesting that
    exhausts the stack it raises [RecursionError], where [decode] goes on.
    [loads] therefore stands for [json.loads] on lines within these limits
    only (a line of white space is within them); what is stated of all
    lines takes [json.loads] as a parameter that may raise any exception. *)

Module Json.

(** A Python [float] read from a decimal literal: the literal's exact
    value [m * 10^e], before rounding to a double; or one of the constants
    [NaN], [Infinity], [-Infinity]. *)
Inductive pyfloat :=
| FDec (m e : Z)
| FNaN
| FInf (negative : bool).

(** The values [json.loads] returns.  A [dict] is kept as the list of its
    items in insertion order, with distinct keys. *)
Inductive json :=
| JNull
| JBool (b : bool)
| JInt (z : Z)
| JFloat (f : pyfloat)
| JStr (s : pystr)
| JArr (items : list json)
| JObj (items : list (pystr * json)).

(** [d[k] = v] on the items of a [dict]. *)
Fixpoint dict_set (k : pystr) (v : json) (d : list (pystr * json))
  : list (pystr * json) :=
  match d with
  | [] => [(k, v)]
  | (k', v') :: d' =>
      if bool_decide (k' = k) then (k', v) :: d' else (k', v') :: dict_set k v d'
  end.

(** [dict(pairs)] *)
Definition dict_of_pairs (pairs : list (pystr * json)) : list (pystr * json) :=
  fold_left (fun d kv => dict_set (fst kv) (snd kv) d) pairs [].

Definition is_ws (c : N) : bool :=
  ((c =? 32) || (c =? 9) || (c =? 10) || (c =? 13))%N.

(** The end of a [WHITESPACE.match]. *)
Fixpoint skip_ws (s : list N) : list N :=
  match s with
  | c :: r => if is_ws c then skip_ws r else s
  | [] => []
  end.

(** [s[idx:idx+len(p)] == p], giving what follows. *)
Fixpoint strip_prefix (p s : list N) : option (list N) :=
  match p, s with
  | [], _ => Some s
  | a :: p', b :: s' => if (a =? b)%N then strip_prefix p' s' else None
  | _ :: _, [] => None
  end.

Definition is_digit (c : N) : bool := ((48 <=? c) && (c <=? 57))%N.

(** The longest run of [0-9]: the digits' values and what follows. *)
Fixpoint span_digits (s : list N) : list N * list N :=
  match s with
  | c :: r =>
      if is_digit c
      then let '(ds, r') := span_digits r in ((c - 48)%N :: ds, r')
      else ([], s)
  | [] => ([], [])
  end.

Definition of_digits (ds : list N) : N :=
  fold_left (fun a d => (10 * a + d)%N) ds 0%N.

Definition hex_value (c : N) : option N :=
  (if is_digit c then Some (c - 48)
   else if (97 <=? c) && (c <=? 102) then Some (c - 87)
   else if (65 <=? c) && (c <=? 70) then Some (c - 55)
   else None)%N.

(** [_decode_uXXXX]: four hexadecimal digits. *)
Definition decode_uXXXX (s : list N) : option (N * list N) :=
  match s with
  | a :: b :: c :: d :: r =>
      match hex_value a, hex_value b, hex_value c, hex_value d with
      | Some x, Some y, Some z, Some w => Some ((((x * 16 + y) * 16 + z) * 16 + w)%N, r)
      | _, _, _, _ => None
      end
  | _ => None
  end.

(** The table [BACKSLASH]. *)
Definition backslash (esc : N) : option N :=
  (if esc =? 34 then Some 34
   else if esc =? 92 then Some 92
   else if esc =? 47 then Some 47
   else if esc =? 98 then Some 8
   else if esc =? 102 then Some 12
   else if esc =? 110 then Some 10
   else if esc =? 114 then Some 13
   else if esc =? 116 then Some 9
   else None)%N.

(** [scanstring] in strict mode, after the opening quote; [acc] holds the
    characters read so far, last first. *)
Fixpoint scanstring (fuel : nat) (s acc : list N) : option (pystr * list N) :=
  match fuel with
  | O => None
  | S fuel =>
      match s with
      | [] => None
      | c :: r =>
          if (c =? 34)%N then Some (rev acc, r)
          else if (c =? 92)%N then
            match r with
            | [] => None
            | esc :: r1 =>
                if (esc =? 117)%N then
                  match decode_uXXXX r1 with
                  | None => None
                  | Some (uni, r2) =>
                      if ((55296 <=? uni) && (uni <=? 56319))%N then
                        match strip_prefix [92; 117]%N r2 with
                        | Some r3 =>
                            match decode_uXXXX r3 with
                            | None => None
                            | Some (uni2, r4) =>
                                if ((56320 <=? uni2) && (uni2 <=? 57343))%N
                                then scanstring fuel r4
                                       ((65536 + ((uni - 55296) * 1024 + (uni2 - 56320)))%N :: acc)
                                else scanstring fuel r2 (uni :: acc)
                            end
                        | None => scanstring fuel r2 (uni :: acc)
                        end
                      else scanstring fuel r2 (uni :: acc)
                  end
                else
                  match backslash esc with
                  | Some c' => scanstring fuel r1 (c' :: acc)
                  | None => None
                  end
            end
          else if (c <? 32)%N then None
          else scanstring fuel r (c :: acc)
      end
  end.

(** The groups of [NUMBER_RE]: an optional [-] ... *)
Definition scan_sign (s : list N) : bool * list N :=
  match s with
  | c :: r => if (c =? 45)%N then (true, r) else (false, s)
  | [] => (false, s)
  end.

(** ... then [0] or a run of digits that does not start with [0] ... *)
Definition scan_integer (s : list N) : option (list N * list N) :=
  match s with
  | c :: r =>
      if (c =? 48)%N then Some ([0%N], r)
      else if is_digit c then Some (span_digits s)
      else None
  | [] => None
  end.

(** ... then, optionally, a point and at least one digit ... *)
Definition scan_frac (s : list N) : option (list N) * list N :=
  match s with
  | c :: r =>
      if (c =? 46)%N
      then match span_digits r with
           | ([], _) => (None, s)
           | (fs, r') => (Some fs, r')
           end
      else (None, s)
  | [] => (None, s)
  end.

(** The [[-+]?] of an exponent. *)
Definition scan_exp_sign (s : list N) : bool * list N :=
  match s with
  | sg :: r =>
      if (sg =? 45)%N then (true, r)
      else if (sg =? 43)%N then (false, r)
      else (false, s)
  | [] => (false, s)
  end.

(** ... then, optionally, [e] or [E], a sign and at least one digit. *)
Definition scan_exp (s : list N) : option Z * list N :=
  match s with
  | c :: r =>
      if ((c =? 101) || (c =? 69))%N
      then
        let '(eneg, r1) := scan_exp_sign r in
        match span_digits r1 with
        | ([], _) => (None, s)
        | (es, r2) =>
            (Some (if eneg then - Z.of_N (of_digits es) else Z.of_N (of_digits es)), r2)
        end
      else (None, s)
  | [] => (None, s)
  end.

(** [NUMBER_RE] and the conversion of its groups: an [int] when there is
    neither a fraction nor an exponent, a [float] otherwise. *)
Definition match_number (s : list N) : option (json * list N) :=
  let '(neg, s1) := scan_sign s in
  match scan_integer s1 with
  | None => None
  | Some (ids, s2) =>
      let '(frac, s3) := scan_frac s2 in
      let '(exp, s4) := scan_exp s3 in
      let sign (n : N) : Z := if neg then - Z.of_N n else Z.of_N n in
      match frac, exp with
      | None, None => Some (JInt (sign (of_digits ids)), s4)
      | _, _ =>
          let fs := default [] frac in
          Some (JFloat (FDec (sign (of_digits (ids ++ fs)))
                             (default 0 exp - Z.of_nat (length fs))), s4)
      end
  end.

(** [scan_once], with the loops of [JSONArray] ([array_items], at the
    start of a value) and of [JSONObject] ([object_items], after the
    opening quote of a key). *)
Fixpoint scan_once (fuel : nat) (s : list N) : option (json * list N) :=
  match fuel with
  | O => None
  | S fuel =>
      match s with
      | [] => None
      | c :: r =>
          if (c =? 34)%N then
            match scanstring (length r) r [] with
            | Some (text, r') => Some (JStr text, r')
            | None => None
            end
          else if (c =? 123)%N then
            match skip_ws r with
            | c' :: r' =>
                if (c' =? 125)%N then Some (JObj [], r')
                else if (c' =? 34)%N then object_items fuel r' []
                else None
            | [] => None
            end
          else if (c =? 91)%N then
            match skip_ws r with
            | c' :: r' =>
                if (c' =? 93)%N then Some (JArr [], r')
                else array_items fuel (skip_ws r) []
            | [] => None
            end
          else
            match strip_prefix (str "null") s with
            | Some r' => Some (JNull, r')
            | None =>
            match strip_prefix (str "true") s with
            | Some r' => Some (JBool true, r')
            | None =>
            match strip_prefix (str "false") s with
            | Some r' => Some (JBool false, r')
            | None =>
            match match_number s with
            | Some res => Some res
            | None =>
            match strip_prefix (str "NaN") s with
            | Some r' => Some (JFloat FNaN, r')
            | None =>
            match strip_prefix (str "Infinity") s with
            | Some r' => Some (JFloat (FInf false), r')
            | None =>
            match strip_prefix (str "-Infinity") s with
            | Some r' => Some (JFloat (FInf true), r')
            | None => None
            end end end end end end end
      end
  end
with array_items (fuel : nat) (s : list N) (acc : list json)
  : option (json * list N) :=
  match fuel with
  | O => None
  | S fuel =>
      match scan_once fuel s with
      | None => None
      | Some (v, r) =>
          match skip_ws r with
          | c :: r' =>
              if (c =? 93)%N then Some (JArr (rev (v :: acc)), r')
              else if (c =? 44)%N then array_items fuel (skip_ws r') (v :: acc)
              else None
          | [] => None
          end
      end
  end
with object_items (fuel : nat) (s : list N) (acc : list (pystr * json))
  : option (json * list N) :=
  match fuel with
  | O => None
  | S fuel =>
      match scanstring (length s) s [] with
      | None => None
      | Some (key, r) =>
          match skip_ws r with
          | c :: r1 =>
              if (c =? 58)%N then
                match scan_once fuel (skip_ws r1) with
                | None => None
                | Some (v, r2) =>
                    match skip_ws r2 with
                    | c' :: r3 =>
                        if (c' =? 125)%N
                        then Some (JObj (dict_of_pairs (rev ((key, v) :: acc))), r3)
                        else if (c' =? 44)%N then
                          match skip_ws r3 with
                          | q :: r4 =>
                              if (q =? 34)%N
                              then object_items fuel r4 ((key, v) :: acc)
                              else None
                          | [] => None
                          end
                        else None
                    | [] => None
                    end
                end
              else None
          | [] => None
          end
      end
  end.

(** [JSONDecoder.decode] after the byte-order-mark test of [loads];
    [None] stands for a [json.JSONDecodeError]. *)
Definition decode (s : pystr) : option json :=
  match s with
  | 65279%N :: _ => None
  | _ =>
      match scan_once (S (S (2 * length s))) (skip_ws s) with
      | Some (v, r) =>
          match skip_ws r with
          | [] => Some v
          | _ :: _ => None
          end
      | None => None
      end
  end.

(** [json.loads(s)] for a [str].  The text of the [JSONDecodeError] (the
    place of the fault) is not modelled: the decoder below only hands it
    to the logger. *)
Definition loads (s : pystr) : result json :=
  match decode s with
  | Some v => ret v
  | None => raise (JSONDecodeError [])
  end.

(** *** The operations of the interpreter that the decoder applies to a
    decoded value *)

(** [type(v).__name__] *)
Definition type_name (v : json) : pystr :=
  match v with
  | JNull => str "NoneType"
  | JBool _ => str "bool"
  | JInt _ => str "int"
  | JFloat _ => str "float"
  | JStr _ => str "str"
  | JArr _ => str "list"
  | JObj _ => str "dict"
  end.

(** [len(v)] *)
Definition len (v : json) : result Z :=
  match v with
  | JStr s => ret (Z.of_nat (length s))
  | JArr items => ret (Z.of_nat (length items))
  | JObj items => ret (Z.of_nat (length items))
  | _ => raise (TypeError (str "object of type '" ++ type_name v ++ str "' has no len()"))
  end.

(** [v[i]] for an index [i >= 0].  The keys of a decoded object are
    [str], so an [int] is never one of them. *)
Definition getitem (v : json) (i : nat) : result json :=
  match v with
  | JStr s =>
      match s !! i with
      | Some c => ret (JStr [c])
      | None => raise (IndexError (str "string index out of range"))
      end
  | JArr items =>
      match items !! i with
      | Some x => ret x
      | None => raise (IndexError (str "list index out of range"))
      end
  | JObj _ => raise (KeyError (format_int (Z.of_nat i)))
  | _ => raise (TypeError (str "'" ++ type_name v ++ str "' object is not subscriptable"))
  end.

(** [f == 3] for a [float]: the double nearest to the literal's value
    [m * 10^e] is 3.0.  The doubles next to 3.0 are [3 - 2^-51] and
    [3 + 2^-51] and 3.0 has an even significand, so a value rounds to 3.0
    exactly when it is within [2^-52] of 3. *)
Definition float_is_3 (f : pyfloat) : bool :=
  match f with
  | FDec m e =>
      if 0 <=? e then m * 10 ^ e =? 3
      else Z.abs (m - 3 * 10 ^ (- e)) * 2 ^ 52 <=? 10 ^ (- e)
  | FNaN | FInf _ => false
  end.

(** [v == 3] *)
Definition eq_3 (v : json) : bool :=
  match v with
  | JInt z => z =? 3
  | JBool b => (if b then 1 else 0) =? 3
  | JFloat f => float_is_3 f
  | _ => false
  end.

(** [isinstance(v, str)] *)
Definition is_str (v : json) : bool :=
  match v with
  | JStr _ => true
  | _ => false
  end.

End Json.

(** ** webscout/Provider/granite.py *)

Module Granite.

Import Json.

(** A Python [dict] with [str] keys and [str] values: [last_response] and
    the records the generator yields. *)
Abbreviation pydict := (gmap pystr pystr).

(** [d.update(other)] *)
Definition update (d other : pydict) : pydict := other ∪ d.

(** Modelled from the spec: the conversation-history collaborator
    ([webscout.AIutel.Conversation]), kept as the list of the exchanges
    handed to it, oldest first. *)
Definition Conversation := list (pystr * pystr).

(** Modelled from the spec: [Conversation.update_chat_history] appends the
    prompt and the final text as one exchange. *)
Definition update_chat_history (prompt response : pystr) (c : Conversation)
  : Conversation :=
  c ++ [(prompt, response)].

(** The attributes of an [IBMGranite] object that [ask] reads or writes.
    The optional logger is left out: its calls change nothing here. *)
Record IBMGranite := {
  last_response : pydict;
  conversation : Conversation
}.

(** [IBMGranite.get_message]; the assertion holds of every [pydict]. *)
Definition get_message (response : pydict) : result pystr :=
  match response !! str "text" with
  | Some t => ret t
  | None => raise (KeyError (str "'text'"))
  end.

(** What [response.iter_lines(decode_unicode=True)] does when asked for
    lines: it ends, gives a line, or raises. *)
Inductive line_source :=
| Exhausted
| Line (line : pystr) (rest : line_source)
| Broken (e : exn).

(** The [requests.Response] attributes that [for_stream] reads. *)
Record Response := {
  ok : bool;
  status_code : Z;
  text : pystr;
  iter_lines : line_source
}.

(** What [self.session.post(...)] does: it raises or returns a response. *)
Inductive transport :=
| PostRaises (e : exn)
| PostReturns (response : Response).

(** What the generator yields: [content] in raw mode, [dict(text=content)]
    otherwise. *)
Inductive chunk :=
| Raw (content : pystr)
| Wrapped (d : pydict).

(** The frame of a [for_stream] generator: not started, parked at the
    [yield] with its locals, or finished. *)
Inductive frame :=
| NotStarted (world : transport)
| Suspended (streaming_text : pystr) (rest : line_source)
| Closed.

(** A generator object made by [for_stream()]: the variables of [ask] that
    the body closes over, and its frame. *)
Record generator := {
  g_prompt : pystr;
  g_raw : bool;
  g_frame : frame
}.

(** What [next(g)] gives. *)
Inductive event :=
| Yield (c : chunk)
| StopIteration
| Raise (e : exn).

(** How the [for] loop of [for_stream] is left. *)
Inductive loop_exit :=
| AtYield (content streaming_text : pystr) (rest : line_source)
| LoopEnd (streaming_text : pystr)
| LoopRaise (e : exn).

(** How an iteration over a generator ends. *)
Inductive ending :=
| Returned
| Raised (e : exn).

(** The three [except] clauses that close the body of [for_stream].  The
    provider errors of [webscout.exceptions] are plain [Exception]
    classes: one raised inside the body reaches the last clause. *)
Definition handle (e : exn) : exn :=
  match e with
  | RequestException m => ProviderConnectionError (str "Request failed: " ++ m)
  | JSONDecodeError m =>
      InvalidResponseError (str "Failed to decode JSON response: " ++ m)
  | _ =>
      FailedToGenerateResponseError
        (str "An unexpected error occurred: " ++ str_of_exn e)
  end.

Section Decoder.

(** [json.loads] *)
Variable loads : pystr -> result json.

(** The body of the inner [try] for one non-empty line: the fragment to
    yield, or [None] for an unrecognized line. *)
Definition try_line (line : pystr) : result (option pystr) :=
  let* data := loads line in
  let* n := len data in
  if n =? 2 then
    let* first := getitem data 0 in
    if eq_3 first then
      let* second := getitem data 1 in
      if is_str second then
        let* content := getitem data 1 in
        match content with
        | JStr c => ret (Some c)
        | _ => ret None
        end
      else ret None
    else ret None
  else ret None.

(** The [for] loop, run from its head until the next [yield], the end of
    the lines or an exception that leaves it. *)
Fixpoint loop (streaming_text : pystr) (src : line_source) : loop_exit :=
  match src with
  | Exhausted => LoopEnd streaming_text
  | Broken e => LoopRaise e
  | Line line rest =>
      if truthy line then
        match try_line line with
        | inr (Some content) => AtYield content (streaming_text ++ content) rest
        | inr None => loop streaming_text rest
        | inl (JSONDecodeError _) => loop streaming_text rest
        | inl e => LoopRaise e
        end
      else loop streaming_text rest
  end.

(** The two statements after the loop. *)
Definition finalize (prompt streaming_text : pystr) (self : IBMGranite)
  : option exn * IBMGranite :=
  let self1 :=
    {| last_response := update (last_response self) {[ str "text" := streaming_text ]};
       conversation := conversation self |} in
  match get_message (last_response self1) with
  | inl e => (Some e, self1)
  | inr message =>
      (None,
       {| last_response := last_response self1;
          conversation := update_chat_history prompt message (conversation self1) |})
  end.

(** The body of [for_stream] from the head of the loop on. *)
Definition resume (g : generator) (streaming_text : pystr) (src : line_source)
    (self : IBMGranite) : event * generator * IBMGranite :=
  let park f := {| g_prompt := g_prompt g; g_raw := g_raw g; g_frame := f |} in
  match loop streaming_text src with
  | AtYield content streaming_text' rest =>
      (Yield (if g_raw g then Raw content else Wrapped {[ str "text" := content ]}),
       park (Suspended streaming_text' rest), self)
  | LoopEnd streaming_text' =>
      match finalize (g_prompt g) streaming_text' self with
      | (None, self') => (StopIteration, park Closed, self')
      | (Some e, self') => (Raise (handle e), park Closed, self')
      end
  | LoopRaise e => (Raise (handle e), park Closed, self)
  end.

(** [next(g)]: the body of [for_stream] run to its next [yield], to its
    end or to the exception it raises. *)
Definition next (g : generator) (self : IBMGranite)
  : event * generator * IBMGranite :=
  let park f := {| g_prompt := g_prompt g; g_raw := g_raw g; g_frame := f |} in
  match g_frame g with
  | NotStarted (PostRaises e) => (Raise (handle e), park Closed, self)
  | NotStarted (PostReturns response) =>
      if negb (ok response) then
        let msg := str "Request failed with status code "
                     ++ format_int (status_code response)
                     ++ str ": " ++ text response in
        (Raise (handle (FailedToGenerateResponseError msg)), park Closed, self)
      else resume g [] (iter_lines response) self
  | Suspended streaming_text rest => resume g streaming_text rest self
  | Closed => (StopIteration, g, self)
  end.

(** [for_stream()]: calling a generator function runs nothing yet. *)
Definition for_stream (prompt : pystr) (raw : bool) (world : transport)
  : generator :=
  {| g_prompt := prompt; g_raw := raw; g_frame := NotStarted world |}.

(** A caller that takes every item ([for chunk in g]): the chunks in
    order, how the iteration ended and the object afterwards.  [None]
    when [fuel] calls of [next] were not enough. *)
Fixpoint iterate (fuel : nat) (g : generator) (self : IBMGranite)
  : option (list chunk * ending * IBMGranite) :=
  match fuel with
  | O => None
  | S fuel =>
      match next g self with
      | (Yield c, g', self') =>
          match iterate fuel g' self' with
          | Some (cs, e, self'') => Some (c :: cs, e, self'')
          | None => None
          end
      | (StopIteration, _, self') => Some ([], Returned, self')
      | (Raise e, _, self') => Some ([], Raised e, self')
      end
  end.

(** The lines a line source can still give. *)
Fixpoint lines_left (src : line_source) : nat :=
  match src with
  | Line _ rest => S (lines_left rest)
  | Exhausted | Broken _ => O
  end.

(** A number of [next] calls that ends every iteration over [g]. *)
Definition enough (g : generator) : nat :=
  match g_frame g with
  | NotStarted (PostReturns response) => S (lines_left (iter_lines response))
  | NotStarted (PostRaises _) => 1
  | Suspended _ rest => S (lines_left rest)
  | Closed => 1
  end.

(** A whole iteration over [g]. *)
Definition consume (g : generator) (self : IBMGranite)
  : option (list chunk * ending * IBMGranite) :=
  iterate (enough g) g self.

(** [for_non_stream]: the generator is run to completion with its items
    dropped, then [self.last_response] is returned. *)
Definition for_non_stream (prompt : pystr) (raw : bool) (world : transport)
    (self : IBMGranite) : option (result pydict * IBMGranite) :=
  match consume (for_stream prompt raw world) self with
  | Some (_, Returned, self') => Some (ret (last_response self'), self')
  | Some (_, Raised e, self') => Some (raise e, self')
  | None => None
  end.

(** What [ask] returns. *)
Inductive answer :=
| Streaming (g : generator)
| Complete (response : pydict).

(** [IBMGranite.ask] without an optimizer. *)
Definition ask (prompt : pystr) (stream raw : bool) (world : transport)
    (self : IBMGranite) : option (result answer * IBMGranite) :=
  if stream then Some (ret (Streaming (for_stream prompt raw world)), self)
  else
    match for_non_stream prompt raw world self with
    | Some (inr response, self') => Some (ret (Complete response), self')
    | Some (inl e, self') => Some (raise e, self')
    | None => None
    end.

(** *** The decode as a whole

    The functions below follow the loop over all its lines at once; the
    theorems relate them to [next] and [iterate]. *)

(** The fragments the loop yields from [src], and how it is left: with
    the accumulated text, or by an exception. *)
Fixpoint trace (streaming_text : pystr) (src : line_source)
  : list pystr * result pystr :=
  match src with
  | Exhausted => ([], inr streaming_text)
  | Broken e => ([], inl e)
  | Line line rest =>
      if truthy line then
        match try_line line with
        | inr (Some content) =>
            let '(cs, r) := trace (streaming_text ++ content) rest in
            (content :: cs, r)
        | inr None => trace streaming_text rest
        | inl (JSONDecodeError _) => trace streaming_text rest
        | inl e => ([], inl e)
        end
      else trace streaming_text rest
  end.

(** The chunk made from a fragment. *)
Definition wrap (raw : bool) (content : pystr) : chunk :=
  if raw then Raw content else Wrapped {[ str "text" := content ]}.

(** How the generator ends once the loop is left. *)
Definition settle (prompt : pystr) (r : result pystr) (self : IBMGranite)
  : ending * IBMGranite :=
  match r with
  | inr streaming_text =>
      match finalize prompt streaming_text self with
      | (None, self') => (Returned, self')
      | (Some e, self') => (Raised (handle e), self')
      end
  | inl e => (Raised (handle e), self)
  end.

(** The whole iteration from the head of the loop. *)
Definition outcome (prompt : pystr) (raw : bool) (streaming_text : pystr)
    (src : line_source) (self : IBMGranite)
  : list chunk * ending * IBMGranite :=
  let '(cs, r) := trace streaming_text src in
  let '(e, self') := settle prompt r self in
  (map (wrap raw) cs, e, self').

(** A line that is empty, that does not parse or that is not recognized
    leaves the loop as it was. *)
Definition skipped (line : pystr) : Prop :=
  truthy line = false \/
  (exists m, try_line line = inl (JSONDecodeError m)) \/
  try_line line = inr None.

(** A whole session: everything an iteration over [for_stream()] gives. *)
Definition session (prompt : pystr) (raw : bool) (world : transport)
    (self : IBMGranite) : list chunk * ending * IBMGranite :=
  match world with
  | PostRaises e => ([], Raised (handle e), self)
  | PostReturns response =>
      if ok response then outcome prompt raw [] (iter_lines response) self
      else
        ([],
         Raised (handle (FailedToGenerateResponseError
                           (str "Request failed with status code "
                              ++ format_int (status_code response)
                              ++ str ": " ++ text response))),
         self)
  end.

End Decoder.

(** The text a chunk carries. *)
Definition content_of (c : chunk) : pystr :=
  match c with
  | Raw content => content
  | Wrapped d => default [] (d !! str "text")
  end.

(** A line source that gives the lines [ls] and goes on as [tail]. *)
Fixpoint lines_then (ls : list pystr) (tail : line_source) : line_source :=
  match ls with
  | [] => tail
  | l :: ls' => Line l (lines_then ls' tail)
  end.

(** The double quote, for the lines written out below. *)
Definition dq : pystr := [34%N].

(** The line [[3,"Hello"]]. *)
Definition hello_line : pystr := str "[3," ++ dq ++ str "Hello" ++ dq ++ str "]".

(** The line [[3," world"]]. *)
Definition world_line : pystr := str "[3," ++ dq ++ str " world" ++ dq ++ str "]".

(** The lines [[3,"Hello"]], an empty line, [not json], [[3," world"]]. *)
Definition hello_lines : list pystr :=
  [ hello_line; []; str "not json"; world_line ].

(** The lines [[3,"Hello"]], [null], [[3," world"]]. *)
Definition null_lines : list pystr := [ hello_line; str "null"; world_line ].

(** A response with the status 404 and the body [Not Found]. *)
Definition not_found : Response :=
  {| ok := false; status_code := 404; text := str "Not Found"; iter_lines := Exhausted |}.

(** The object [IBMGranite.__init__] makes, before any history is loaded. *)
Definition fresh : IBMGranite := {| last_response := ∅; conversation := [] |}.

(** A response with an ok status whose body gives the lines of [src]. *)
Definition streamed (src : line_source) : transport :=
  PostReturns {| ok := true; status_code := 200; text := []; iter_lines := src |}.

End Granite.

(** ** The other comparisons of [LogLevel]

    The class defines [__lt__] and nothing else, and [Enum] defines no
    ordering: [__le__], [__gt__] and [__ge__] are those of [object], which
    answer [NotImplemented]. *)

Module Ordering.

Import Level.

Definition symbol (op : cmp_op) : pystr :=
  match op with
  | Lt => str "<"
  | Le => str "<="
  | Gt => str ">"
  | Ge => str ">="
  end.

(** The operator whose method the interpreter asks of the right operand
    when the left one answers [NotImplemented]. *)
Definition reflected (op : cmp_op) : cmp_op :=
  match op with
  | Lt => Gt
  | Le => Ge
  | Gt => Lt
  | Ge => Le
  end.

(** The rich comparison method of a [LogLevel] for [op]. *)
Definition richcompare (op : cmp_op) (self : LogLevel) (other : pyvalue)
  : richcmp :=
  match op with
  | Lt => __lt__ self other
  | Le | Gt | Ge => NotImplemented
  end.

(** The reflected method of the right operand, asked about a [LogLevel]:
    a level answers with the methods of its class, [None], [bool], [int]
    and [str] answer [NotImplemented], an object of another class answers
    as its class says. *)
Definition reflected_answer (op : cmp_op) (self : LogLevel) (other : pyvalue)
  : richcmp :=
  match other with
  | PLevel o => richcompare (reflected op) o (PLevel self)
  | PObject _ methods => methods (reflected op) self
  | PNone | PBool _ | PInt _ | PStr _ => NotImplemented
  end.

(** The expression [self op other]. *)
Definition compare (op : cmp_op) (self : LogLevel) (other : pyvalue)
  : result bool :=
  match richcompare op self other with
  | Answer b => ret b
  | NotImplemented =>
      match reflected_answer op self other with
      | Answer b => ret b
      | NotImplemented =>
          raise (TypeError (str "'" ++ symbol op
                              ++ str "' not supported between instances of 'LogLevel' and '"
                              ++ Level.type_name other ++ str "'"))
      end
  end.

(** [c] spells the letter [C] of a name for [get_level]: it is [C], its
    lower-case letter, or a dotless i for [I]. *)
Definition spells (c C : N) : Prop :=
  c = C \/ c = (C + 32)%N \/ (C = 73%N /\ c = 305%N).

(** [t] holds no [S], and no [F] followed by [F], [I] or [L]: no code
    point upper-cases to two or more letters of it. *)
Fixpoint no_ligature (t : list N) : bool :=
  match t with
  | [] => true
  | C :: r =>
      negb (C =? 83)%N
      && negb ((C =? 70)%N
               && match r with
                  | D :: _ => ((D =? 70) || (D =? 73) || (D =? 76))%N
                  | [] => false
                  end)
      && no_ligature r
  end.

Definition is_capital (C : N) : bool := ((65 <=? C) && (C <=? 90))%N.

(** An ASCII letter or a dotless i. *)
Definition is_letter (c : N) : bool :=
  (((65 <=? c) && (c <=? 90)) || ((97 <=? c) && (c <=? 122)) || (c =? 305))%N.

End Ordering.

(** ** Partial iteration and blank lines *)

Module Partial.

Import Json Granite.

Section Take.

Variable loads : pystr -> result json.

(** A caller that takes at most [n] items and then drops the generator
    ([itertools.islice], or a [break] in the loop): the chunks taken, the
    generator and the object as they are left. *)
Fixpoint take (n : nat) (g : generator) (self : IBMGranite)
  : list chunk * generator * IBMGranite :=
  match n with
  | O => ([], g, self)
  | S n =>
      match next loads g self with
      | (Yield c, g', self') =>
          let '(cs, g'', self'') := take n g' self' in
          (c :: cs, g'', self'')
      | (_, g', self') => ([], g', self')
      end
  end.

End Take.

(** The lines of [src] that are not empty. *)
Fixpoint nonempty_lines (src : line_source) : nat :=
  match src with
  | Line line rest =>
      ((if truthy line then 1 else 0) + nonempty_lines rest)%nat
  | Exhausted | Broken _ => O
  end.

(** The exception is one of the provider errors of [webscout.exceptions]. *)
Definition provider_error (e : exn) : bool :=
  match e with
  | FailedToGenerateResponseError _ | ProviderConnectionError _
  | InvalidResponseError _ => true
  | _ => false
  end.

(** The decoded value has no [len]. *)
Definition scalar (data : json) : bool :=
  match data with
  | JNull | JBool _ | JInt _ | JFloat _ => true
  | _ => false
  end.

(** The decoded value is an object of two keys. *)
Definition two_keys (data : json) : bool :=
  match data with
  | JObj [_; _] => true
  | _ => false
  end.

Section Lines.

Variable loads : pystr -> result json.

(** The fragment a line carries, read off the value it decodes to: the
    second item of a list of two items whose first is equal to 3 and whose
    second is a [str]. *)
Definition fragment (line : pystr) : option pystr :=
  if truthy line then
    match loads line with
    | inr (JArr [first; JStr content]) =>
        if eq_3 first then Some content else None
    | _ => None
    end
  else None.

(** A line that cannot end the decode: an empty line, a line that
    [json.loads] rejects with [JSONDecodeError], or a line that decodes to
    a value with a length that is not an object of two keys. *)
Definition harmless (line : pystr) : bool :=
  if truthy line then
    match loads line with
    | inl (JSONDecodeError _) => true
    | inl _ => false
    | inr data => negb (scalar data) && negb (two_keys data)
    end
  else true.

End Lines.

End Partial.

(** ** The rest of [IBMGranite]: [__init__], the optimizer of [ask], [chat] *)

Module Client.

Import Json Granite.

(** The JSON body of the request: [model], the contents of the [system]
    and of the [user] message, and [stream]. *)
Record Payload := {
  p_model : pystr;
  p_system : pystr;
  p_user : pystr;
  p_stream : bool
}.

(** An [IBMGranite] object with the attributes the claims did not need:
    the model, the system prompt, the request headers, and what the
    generator expression [__available_optimizers] has not given yet. *)
Record Provider := {
  state : IBMGranite;
  model : pystr;
  system_prompt : pystr;
  headers : pydict;
  available_optimizers : list pystr
}.

Definition with_state (self : Provider) (st : IBMGranite) : Provider :=
  {| state := st; model := model self; system_prompt := system_prompt self;
     headers := headers self; available_optimizers := available_optimizers self |}.

Definition with_optimizers (self : Provider) (rest : list pystr) : Provider :=
  {| state := state self; model := model self; system_prompt := system_prompt self;
     headers := headers self; available_optimizers := rest |}.

(** [AVAILABLE_MODELS] *)
Definition AVAILABLE_MODELS : list pystr := [str "granite-3-8b-instruct"].

(** [x or y] for two [str] values, the first of which may be [None]. *)
Definition or_else (x : option pystr) (y : pystr) : pystr :=
  match x with
  | Some s => if truthy s then s else y
  | None => y
  end.

Section Init.

(** [Lit().random()], the user agent drawn for this object. *)
Variable user_agent : pystr.

(** The names [dir(Optimizers)] gives that are callable and do not start
    with two underscores, in its order. *)
Variable optimizer_names : list pystr.

(** [AwesomePrompts().get_act(act, raise_not_found=True, ...)] *)
Variable get_act : pystr -> result pystr.

(** [IBMGranite.__init__] without logging: the new object and the new
    value of the class attribute [Conversation.intro], whose old value is
    [class_intro].  The attributes that only the HTTP session reads (the
    endpoint, the timeout, the proxies, the chunk size) are left out. *)
Definition init (api_key : pystr) (intro act : option pystr) (model : pystr)
    (system_prompt : pystr) (class_intro : pystr) : result (Provider * pystr) :=
  if bool_decide (model ∈ AVAILABLE_MODELS) then
    let headers : pydict :=
      <[ str "Authorization" := str "Bearer " ++ api_key ]>
        (<[ str "authority" := str "d18n68ssusgr7r.cloudfront.net" ]>
        (<[ str "accept" := str "application/json,application/jsonl" ]>
        (<[ str "content-type" := str "application/json" ]>
        (<[ str "origin" := str "https://www.ibm.com" ]>
        (<[ str "referer" := str "https://www.ibm.com/" ]>
        (<[ str "user-agent" := user_agent ]> ∅)))))) in
    let* new_intro :=
      match act with
      | Some a => if truthy a then get_act a else ret (or_else intro class_intro)
      | None => ret (or_else intro class_intro)
      end in
    ret ({| state := {| last_response := ∅; conversation := [] |};
            model := model;
            system_prompt := system_prompt;
            headers := headers;
            available_optimizers := optimizer_names |},
         new_intro)
  else
    raise (ValueError (str "Invalid model: " ++ model
                         ++ str ". Choose from: ['granite-3-8b-instruct']")).

End Init.

(** [x in g] for a generator [g] that still has [remaining] to give: the
    items are taken up to the first one equal to [x], or all of them. *)
Fixpoint contains (x : pystr) (remaining : list pystr) : bool * list pystr :=
  match remaining with
  | [] => (false, [])
  | y :: rest => if bool_decide (y = x) then (true, rest) else contains x rest
  end.

(** [get_message] applied to what [ask] yields. *)
Definition get_message_of (response : chunk) : result pystr :=
  match response with
  | Wrapped d => get_message d
  | Raw _ => raise (AssertionError (str "Response should be of dict data-type only"))
  end.

(** The frame of the generator [chat] makes: not started, inside its loop
    over the generator of [ask], or finished. *)
Inductive chat_frame :=
| ChatNotStarted
| ChatRunning (inner : generator)
| ChatClosed.

(** The generator [chat] makes, with the arguments its body closes over. *)
Record chat_generator := {
  c_prompt : pystr;
  c_optimizer : option pystr;
  c_conversationally : bool;
  c_frame : chat_frame
}.

Inductive chat_event :=
| ChatYield (message : pystr)
| ChatStop
| ChatRaise (e : exn).

Section Ask.

(** [json.loads] *)
Variable loads : pystr -> result json.

(** [Conversation.gen_complete_prompt], of the exchanges so far and the
    prompt. *)
Variable gen_complete_prompt : Conversation -> pystr -> pystr.

(** [getattr(Optimizers, name)(text)] *)
Variable optimize : pystr -> pystr -> pystr.

(** The text an f-string prints for the generator object
    [__available_optimizers]. *)
Variable genexpr_repr : pystr.

(** What [self.session.post] does with a payload. *)
Variable post : Payload -> transport.

(** The start of [ask]: the prompt the request will carry, or the
    exception for an optimizer that is not found. *)
Definition prepare (prompt : pystr) (optimizer : option pystr)
    (conversationally : bool) (self : Provider) : result pystr * Provider :=
  let conversation_prompt :=
    gen_complete_prompt (conversation (state self)) prompt in
  match optimizer with
  | Some name =>
      if truthy name then
        let '(found, rest) := contains name (available_optimizers self) in
        if found
        then (ret (optimize name (if conversationally then conversation_prompt
                                  else prompt)),
              with_optimizers self rest)
        else (raise (Exception (str "Optimizer is not one of " ++ genexpr_repr)),
              with_optimizers self rest)
      else (ret conversation_prompt, self)
  | None => (ret conversation_prompt, self)
  end.

(** The [payload] of [ask]. *)
Definition payload_of (self : Provider) (conversation_prompt : pystr)
    (stream : bool) : Payload :=
  {| p_model := model self; p_system := system_prompt self;
     p_user := conversation_prompt; p_stream := stream |}.

(** [ask(prompt, True, raw, optimizer, conversationally)] *)
Definition ask_stream (prompt : pystr) (raw : bool) (optimizer : option pystr)
    (conversationally : bool) (self : Provider) : result generator * Provider :=
  match prepare prompt optimizer conversationally self with
  | (inl e, self') => (raise e, self')
  | (inr conversation_prompt, self') =>
      (ret (for_stream prompt raw (post (payload_of self' conversation_prompt true))),
       self')
  end.

(** [ask(prompt, False, raw, optimizer, conversationally)] *)
Definition ask_complete (prompt : pystr) (raw : bool) (optimizer : option pystr)
    (conversationally : bool) (self : Provider)
  : option (result pydict * Provider) :=
  match prepare prompt optimizer conversationally self with
  | (inl e, self') => Some (raise e, self')
  | (inr conversation_prompt, self') =>
      match for_non_stream loads prompt raw
              (post (payload_of self' conversation_prompt false)) (state self') with
      | Some (r, st') => Some (r, with_state self' st')
      | None => None
      end
  end.

(** [IBMGranite.ask] *)
Definition ask (prompt : pystr) (stream raw : bool) (optimizer : option pystr)
    (conversationally : bool) (self : Provider)
  : option (result answer * Provider) :=
  if stream then
    match ask_stream prompt raw optimizer conversationally self with
    | (inr g, self') => Some (ret (Streaming g), self')
    | (inl e, self') => Some (raise e, self')
    end
  else
    match ask_complete prompt raw optimizer conversationally self with
    | Some (inr response, self') => Some (ret (Complete response), self')
    | Some (inl e, self') => Some (raise e, self')
    | None => None
    end.

(** One turn of the loop of [chat]'s [for_stream] over the generator of
    [ask]. *)
Definition chat_resume (c : chat_generator) (inner : generator) (self : Provider)
  : chat_event * chat_generator * Provider :=
  let park f := {| c_prompt := c_prompt c; c_optimizer := c_optimizer c;
                   c_conversationally := c_conversationally c; c_frame := f |} in
  match next loads inner (state self) with
  | (Yield response, inner', st') =>
      match get_message_of response with
      | inr message => (ChatYield message, park (ChatRunning inner'), with_state self st')
      | inl e => (ChatRaise e, park ChatClosed, with_state self st')
      end
  | (StopIteration, _, st') => (ChatStop, park ChatClosed, with_state self st')
  | (Raise e, _, st') => (ChatRaise e, park ChatClosed, with_state self st')
  end.

(** [next] of the generator [chat] makes. *)
Definition chat_next (c : chat_generator) (self : Provider)
  : chat_event * chat_generator * Provider :=
  let park f := {| c_prompt := c_prompt c; c_optimizer := c_optimizer c;
                   c_conversationally := c_conversationally c; c_frame := f |} in
  match c_frame c with
  | ChatNotStarted =>
      match ask_stream (c_prompt c) false (c_optimizer c) (c_conversationally c) self with
      | (inr inner, self') => chat_resume c inner self'
      | (inl e, self') => (ChatRaise e, park ChatClosed, self')
      end
  | ChatRunning inner => chat_resume c inner self
  | ChatClosed => (ChatStop, c, self)
  end.

(** A caller that takes every item of the generator of [chat]. *)
Fixpoint chat_iterate (fuel : nat) (c : chat_generator) (self : Provider)
  : option (list pystr * ending * Provider) :=
  match fuel with
  | O => None
  | S fuel =>
      match chat_next c self with
      | (ChatYield message, c', self') =>
          match chat_iterate fuel c' self' with
          | Some (ms, e, self'') => Some (message :: ms, e, self'')
          | None => None
          end
      | (ChatStop, _, self') => Some ([], Returned, self')
      | (ChatRaise e, _, self') => Some ([], Raised e, self')
      end
  end.

(** A number of [next] calls that ends every iteration over [c]. *)
Definition chat_enough (c : chat_generator) (self : Provider) : nat :=
  match c_frame c with
  | ChatNotStarted =>
      match ask_stream (c_prompt c) false (c_optimizer c) (c_conversationally c) self with
      | (inr inner, _) => enough inner
      | (inl _, _) => 1
      end
  | ChatRunning inner => enough inner
  | ChatClosed => 1
  end.

(** [chat(prompt, True, optimizer, conversationally)]: the generator. *)
Definition chat_stream (prompt : pystr) (optimizer : option pystr)
    (conversationally : bool) : chat_generator :=
  {| c_prompt := prompt; c_optimizer := optimizer;
     c_conversationally := conversationally; c_frame := ChatNotStarted |}.

(** A whole iteration over the generator of [chat]. *)
Definition chat_consume (c : chat_generator) (self : Provider)
  : option (list pystr * ending * Provider) :=
  chat_iterate (chat_enough c self) c self.

(** [chat(prompt, False, optimizer, conversationally)] *)
Definition chat_complete (prompt : pystr) (optimizer : option pystr)
    (conversationally : bool) (self : Provider)
  : option (result pystr * Provider) :=
  match ask_complete prompt false optimizer conversationally self with
  | Some (inr response, self') => Some (get_message response, self')
  | Some (inl e, self') => Some (raise e, self')
  | None => None
  end.

End Ask.

(** An object with the two optimizers [code] and [shell_command] and no
    history, and collaborators to run it with: a history that adds
    nothing to the prompt, an optimizer that puts its name before the
    text, a service that answers every request with the lines
    [hello_lines]. *)
Definition a_provider : Provider :=
  {| state := fresh;
     model := str "granite-3-8b-instruct";
     system_prompt := str "You are a helpful AI assistant.";
     headers := ∅;
     available_optimizers := [str "code"; str "shell_command"] |}.

Definition plain_prompt (c : Conversation) (prompt : pystr) : pystr := prompt.

Definition tagging (name text : pystr) : pystr := name ++ str ": " ++ text.

Definition hello_service (p : Payload) : transport :=
  streamed (lines_then hello_lines Exhausted).

End Client.

(** * Properties *)

Import Level Json Granite.

(** ** The fuel of the JSON decoder

    Each parser leaves less text than it was given, so the fuel [decode]
    starts with is never used up: more fuel gives the same value or the
    same failure. *)

Section JsonFuel.

Lemma skip_ws_length s : (length (skip_ws s) <= length s)%nat.
Proof.
  induction s as [|c r IH]; cbn [skip_ws]; [lia|].
  destruct (is_ws c); cbn [length]; lia.
Qed.

Lemma skip_ws_cons s c r :
  skip_ws s = c :: r -> (length r < length s)%nat.
Proof.
  intros H. pose proof (skip_ws_length s) as Hl. rewrite H in Hl.
  cbn [length] in Hl. lia.
Qed.

Lemma strip_prefix_length p : forall s r,
  strip_prefix p s = Some r -> (length r + length p = length s)%nat.
Proof.
  induction p as [|a p IH]; intros [|b s] r; cbn [strip_prefix length];
    try discriminate.
  - intros [= <-]. cbn [length]. lia.
  - intros [= <-]. cbn [length]. lia.
  - destruct (a =? b)%N; [|discriminate]. intros H. apply IH in H. lia.
Qed.

Lemma span_digits_length s : forall ds r,
  span_digits s = (ds, r) -> (length ds + length r = length s)%nat.
Proof.
  induction s as [|c s IH]; intros ds r; cbn [span_digits].
  - intros [= <- <-]. reflexivity.
  - destruct (is_digit c).
    + destruct (span_digits s) as [ds' r'] eqn:E. intros [= <- <-].
      specialize (IH _ _ eq_refl). cbn [length]. lia.
    + intros [= <- <-]. cbn [length]. lia.
Qed.

Lemma decode_uXXXX_length s n r :
  decode_uXXXX s = Some (n, r) -> (length r + 4 = length s)%nat.
Proof.
  unfold decode_uXXXX. destruct s as [|a [|b [|c [|d s]]]]; try discriminate.
  destruct (hex_value a), (hex_value b), (hex_value c), (hex_value d);
    try discriminate.
  intros [= _ <-]. cbn [length]. lia.
Qed.

Lemma scanstring_length fuel : forall s acc text r,
  scanstring fuel s acc = Some (text, r) -> (length r < length s)%nat.
Proof.
  induction fuel as [|fuel IH]; intros s acc text r; cbn [scanstring];
    [discriminate|].
  destruct s as [|c s]; [discriminate|]. cbn [length].
  destruct (c =? 34)%N; [intros [= _ <-]; lia|].
  destruct (c =? 92)%N.
  - destruct s as [|esc r1]; [discriminate|]. cbn [length].
    destruct (esc =? 117)%N.
    + destruct (decode_uXXXX r1) as [[uni r2]|] eqn:E1; [|discriminate].
      apply decode_uXXXX_length in E1.
      assert (Hplain : forall a, scanstring fuel r2 a = Some (text, r) ->
                                 (length r < S (S (length r1)))%nat).
      { intros a H. apply IH in H. lia. }
      destruct ((55296 <=? uni) && (uni <=? 56319))%N; [|apply Hplain].
      destruct (strip_prefix [92; 117]%N r2) as [r3|] eqn:E2; [|apply Hplain].
      apply strip_prefix_length in E2. cbn [length] in E2.
      destruct (decode_uXXXX r3) as [[uni2 r4]|] eqn:E3; [|discriminate].
      apply decode_uXXXX_length in E3.
      destruct ((56320 <=? uni2) && (uni2 <=? 57343))%N; [|apply Hplain].
      intros H. apply IH in H. lia.
    + destruct (backslash esc); [|discriminate]. intros H. apply IH in H. lia.
  - destruct (c <? 32)%N; [discriminate|]. intros H. apply IH in H. lia.
Qed.

Lemma scan_sign_length s neg r :
  scan_sign s = (neg, r) -> (length r <= length s)%nat.
Proof.
  unfold scan_sign. destruct s as [|c s]; [intros [= _ <-]; lia|].
  destruct (c =? 45)%N; intros [= _ <-]; cbn [length]; lia.
Qed.

Lemma scan_integer_length s ds r :
  scan_integer s = Some (ds, r) -> (length r < length s)%nat.
Proof.
  unfold scan_integer. destruct s as [|c s]; [discriminate|].
  destruct (c =? 48)%N; [intros [= _ <-]; cbn [length]; lia|].
  destruct (is_digit c) eqn:Hd; [|discriminate].
  cbn [span_digits]. rewrite Hd.
  destruct (span_digits s) as [ds' r'] eqn:E. intros [= _ <-].
  apply span_digits_length in E. cbn [length]. lia.
Qed.

Lemma scan_frac_length s frac r :
  scan_frac s = (frac, r) -> (length r <= length s)%nat.
Proof.
  unfold scan_frac. destruct s as [|c s]; [intros [= _ <-]; lia|].
  destruct (c =? 46)%N; [|intros [= _ <-]; lia].
  destruct (span_digits s) as [[|d ds] r'] eqn:E; intros [= _ <-]; [lia|].
  apply span_digits_length in E. cbn [length] in *. lia.
Qed.

Lemma scan_exp_length s exp r :
  scan_exp s = (exp, r) -> (length r <= length s)%nat.
Proof.
  unfold scan_exp. destruct s as [|c s]; [intros [= _ <-]; lia|].
  destruct ((c =? 101) || (c =? 69))%N; [|intros [= _ <-]; lia].
  destruct (scan_exp_sign s) as [eneg r1] eqn:Es.
  assert (length r1 <= length s)%nat.
  { unfold scan_exp_sign in Es. destruct s as [|sg s']; [by inversion Es|].
    destruct (sg =? 45)%N; [inversion Es; cbn [length]; lia|].
    destruct (sg =? 43)%N; inversion Es; cbn [length]; lia. }
  destruct (span_digits r1) as [[|d ds] r2] eqn:E; intros [= _ <-]; [lia|].
  apply span_digits_length in E. cbn [length] in *. lia.
Qed.

Lemma match_number_length s v r :
  match_number s = Some (v, r) -> (length r < length s)%nat.
Proof.
  unfold match_number.
  destruct (scan_sign s) as [neg s1] eqn:E1. apply scan_sign_length in E1.
  destruct (scan_integer s1) as [[ids s2]|] eqn:E2; [|discriminate].
  apply scan_integer_length in E2.
  destruct (scan_frac s2) as [frac s3] eqn:E3. apply scan_frac_length in E3.
  destruct (scan_exp s3) as [exp s4] eqn:E4. apply scan_exp_length in E4.
  destruct frac, exp; intros [= _ <-]; lia.
Qed.

Lemma scan_once_S fuel s :
  scan_once (S fuel) s =
  match s with
  | [] => None
  | c :: r =>
      if (c =? 34)%N then
        match scanstring (length r) r [] with
        | Some (text, r') => Some (JStr text, r')
        | None => None
        end
      else if (c =? 123)%N then
        match skip_ws r with
        | c' :: r' =>
            if (c' =? 125)%N then Some (JObj [], r')
            else if (c' =? 34)%N then object_items fuel r' []
            else None
        | [] => None
        end
      else if (c =? 91)%N then
        match skip_ws r with
        | c' :: r' =>
            if (c' =? 93)%N then Some (JArr [], r')
            else array_items fuel (skip_ws r) []
        | [] => None
        end
      else
        match strip_prefix (str "null") s with
        | Some r' => Some (JNull, r')
        | None =>
        match strip_prefix (str "true") s with
        | Some r' => Some (JBool true, r')
        | None =>
        match strip_prefix (str "false") s with
        | Some r' => Some (JBool false, r')
        | None =>
        match match_number s with
        | Some res => Some res
        | None =>
        match strip_prefix (str "NaN") s with
        | Some r' => Some (JFloat FNaN, r')
        | None =>
        match strip_prefix (str "Infinity") s with
        | Some r' => Some (JFloat (FInf false), r')
        | None =>
        match strip_prefix (str "-Infinity") s with
        | Some r' => Some (JFloat (FInf true), r')
        | None => None
        end end end end end end end
  end.
Proof. reflexivity. Qed.

Lemma array_items_S fuel s acc :
  array_items (S fuel) s acc =
  match scan_once fuel s with
  | None => None
  | Some (v, r) =>
      match skip_ws r with
      | c :: r' =>
          if (c =? 93)%N then Some (JArr (rev (v :: acc)), r')
          else if (c =? 44)%N then array_items fuel (skip_ws r') (v :: acc)
          else None
      | [] => None
      end
  end.
Proof. reflexivity. Qed.

Lemma object_items_S fuel s acc :
  object_items (S fuel) s acc =
  match scanstring (length s) s [] with
  | None => None
  | Some (key, r) =>
      match skip_ws r with
      | c :: r1 =>
          if (c =? 58)%N then
            match scan_once fuel (skip_ws r1) with
            | None => None
            | Some (v, r2) =>
                match skip_ws r2 with
                | c' :: r3 =>
                    if (c' =? 125)%N
                    then Some (JObj (dict_of_pairs (rev ((key, v) :: acc))), r3)
                    else if (c' =? 44)%N then
                      match skip_ws r3 with
                      | q :: r4 =>
                          if (q =? 34)%N
                          then object_items fuel r4 ((key, v) :: acc)
                          else None
                      | [] => None
                      end
                    else None
                | [] => None
                end
            end
          else None
      | [] => None
      end
  end.
Proof. reflexivity. Qed.

Lemma scan_fuel fuel :
  (forall s, (2 * length s <= fuel)%nat ->
     (forall k, scan_once (fuel + k) s = scan_once fuel s) /\
     (forall v r, scan_once fuel s = Some (v, r) -> (length r < length s)%nat)) /\
  (forall s acc, (2 * length s + 1 <= fuel)%nat ->
     (forall k, array_items (fuel + k) s acc = array_items fuel s acc) /\
     (forall v r, array_items fuel s acc = Some (v, r) ->
                  (length r < length s)%nat)) /\
  (forall s acc, (2 * length s + 1 <= fuel)%nat ->
     (forall k, object_items (fuel + k) s acc = object_items fuel s acc) /\
     (forall v r, object_items fuel s acc = Some (v, r) ->
                  (length r < length s)%nat)).
Proof.
  induction fuel as [|fuel (IHs & IHa & IHo)].
  { split; [|split; intros s acc H; lia].
    intros [|c s] H; [|cbn [length] in H; lia].
    split; [|discriminate]. intros [|k]; reflexivity. }
  split; [|split].
  - (* scan_once *)
    intros [|c s] Hf; [split; [reflexivity|discriminate]|].
    cbn [length] in Hf.
    assert (Hall : forall k,
              scan_once (S (fuel + k)) (c :: s) = scan_once (S fuel) (c :: s) /\
              (forall v r, scan_once (S fuel) (c :: s) = Some (v, r) ->
                           (length r < length (c :: s))%nat));
      [|split; [intros k; apply (Hall k)|apply (Hall O)]].
    intros k. rewrite !scan_once_S. cbn [length].
    destruct (c =? 34)%N.
    { split; [reflexivity|]. intros v r.
      destruct (scanstring (length s) s []) as [[text r']|] eqn:E; [|discriminate].
      apply scanstring_length in E. intros [= _ <-]. lia. }
    destruct (c =? 123)%N.
    { destruct (skip_ws s) as [|c' r'] eqn:E; [split; [reflexivity|discriminate]|].
      apply skip_ws_cons in E.
      destruct (c' =? 125)%N; [split; [reflexivity|intros v r [= _ <-]; lia]|].
      destruct (c' =? 34)%N; [|split; [reflexivity|discriminate]].
      destruct (IHo r' [] ltac:(lia)) as [Hk Hl].
      split; [apply Hk|]. intros v r H. apply Hl in H. lia. }
    destruct (c =? 91)%N.
    { destruct (skip_ws s) as [|c' r'] eqn:E; [split; [reflexivity|discriminate]|].
      pose proof (skip_ws_length s) as Hws. rewrite E in Hws.
      destruct (c' =? 93)%N;
        [split; [reflexivity|intros v r [= _ <-]; cbn [length] in Hws; lia]|].
      destruct (IHa (c' :: r') [] ltac:(lia)) as [Hk Hl].
      split; [apply Hk|]. intros v r H. apply Hl in H. lia. }
    split; [reflexivity|]. intros v r.
    repeat match goal with
           | |- context [strip_prefix ?p ?t] =>
               let E := fresh "E" in
               destruct (strip_prefix p t) eqn:E;
               [apply strip_prefix_length in E;
                let n := eval vm_compute in (length p) in
                change (length p) with n in E;
                intros [= _ <-]; cbn [length] in *; lia|]
           | |- context [match_number ?t] =>
               let E := fresh "E" in
               destruct (match_number t) as [[? ?]|] eqn:E;
               [apply match_number_length in E;
                intros [= _ <-]; cbn [length] in *; lia|]
           end.
    discriminate.
  - (* array_items *)
    intros s acc Hf.
    assert (Hall : forall k,
              array_items (S (fuel + k)) s acc = array_items (S fuel) s acc /\
              (forall v r, array_items (S fuel) s acc = Some (v, r) ->
                           (length r < length s)%nat));
      [|split; [intros k; apply (Hall k)|apply (Hall O)]].
    intros k. rewrite !array_items_S.
    destruct (IHs s ltac:(lia)) as [Hk Hl]. rewrite Hk.
    destruct (scan_once fuel s) as [[v0 r0]|]; [|split; [reflexivity|discriminate]].
    specialize (Hl _ _ eq_refl).
    destruct (skip_ws r0) as [|c r'] eqn:E; [split; [reflexivity|discriminate]|].
    apply skip_ws_cons in E.
    destruct (c =? 93)%N; [split; [reflexivity|intros v r [= _ <-]; lia]|].
    destruct (c =? 44)%N; [|split; [reflexivity|discriminate]].
    pose proof (skip_ws_length r') as Hws.
    destruct (IHa (skip_ws r') (v0 :: acc) ltac:(lia)) as [Hk' Hl'].
    split; [apply Hk'|]. intros v r H. apply Hl' in H. lia.
  - (* object_items *)
    intros s acc Hf.
    assert (Hall : forall k,
              object_items (S (fuel + k)) s acc = object_items (S fuel) s acc /\
              (forall v r, object_items (S fuel) s acc = Some (v, r) ->
                           (length r < length s)%nat));
      [|split; [intros k; apply (Hall k)|apply (Hall O)]].
    intros k. rewrite !object_items_S.
    destruct (scanstring (length s) s []) as [[key r0]|] eqn:Ek;
      [|split; [reflexivity|discriminate]].
    apply scanstring_length in Ek.
    destruct (skip_ws r0) as [|c r1] eqn:E1; [split; [reflexivity|discriminate]|].
    apply skip_ws_cons in E1.
    destruct (c =? 58)%N; [|split; [reflexivity|discriminate]].
    pose proof (skip_ws_length r1) as Hws1.
    destruct (IHs (skip_ws r1) ltac:(lia)) as [Hk Hl]. rewrite Hk.
    destruct (scan_once fuel (skip_ws r1)) as [[v0 r2]|];
      [|split; [reflexivity|discriminate]].
    specialize (Hl _ _ eq_refl).
    destruct (skip_ws r2) as [|c' r3] eqn:E3; [split; [reflexivity|discriminate]|].
    apply skip_ws_cons in E3.
    destruct (c' =? 125)%N; [split; [reflexivity|intros v r [= _ <-]; lia]|].
    destruct (c' =? 44)%N; [|split; [reflexivity|discriminate]].
    destruct (skip_ws r3) as [|q r4] eqn:E4; [split; [reflexivity|discriminate]|].
    apply skip_ws_cons in E4.
    destruct (q =? 34)%N; [|split; [reflexivity|discriminate]].
    destruct (IHo r4 ((key, v0) :: acc) ltac:(lia)) as [Hk' Hl'].
    split; [apply Hk'|]. intros v r H. apply Hl' in H. lia.
Qed.

(** More fuel than [decode] gives changes nothing: a [None] of [decode]
    is a text that is not JSON, never an exhausted fuel. *)
Lemma decode_fuel_enough s k :
  scan_once (S (S (2 * length s)) + k) (skip_ws s)
  = scan_once (S (S (2 * length s))) (skip_ws s).
Proof.
  pose proof (skip_ws_length s) as Hws.
  apply (proj1 (scan_fuel (S (S (2 * length s))))). lia.
Qed.

End JsonFuel.

Section DecoderFacts.

Variable loads : pystr -> result json.

Lemma finalize_ok prompt streaming_text self :
  finalize prompt streaming_text self =
  (None,
   {| last_response := <[ str "text" := streaming_text ]> (last_response self);
      conversation := conversation self ++ [(prompt, streaming_text)] |}).
Proof.
  unfold finalize, update, get_message, update_chat_history. cbn [last_response conversation].
  rewrite <- insert_union_singleton_l.
  rewrite lookup_insert_eq. reflexivity.
Qed.

Lemma loop_trace streaming_text src :
  match loop loads streaming_text src with
  | AtYield content streaming_text' rest =>
      streaming_text' = streaming_text ++ content /\
      (lines_left rest < lines_left src)%nat /\
      trace loads streaming_text src =
        (content :: fst (trace loads streaming_text' rest),
         snd (trace loads streaming_text' rest))
  | LoopEnd streaming_text' =>
      streaming_text' = streaming_text /\
      trace loads streaming_text src = ([], inr streaming_text)
  | LoopRaise e => trace loads streaming_text src = ([], inl e)
  end.
Proof.
  induction src as [|line rest IH|e]; cbn [loop trace lines_left]; auto.
  assert (Hskip :
    match loop loads streaming_text rest with
    | AtYield content streaming_text' rest0 =>
        streaming_text' = streaming_text ++ content /\
        (lines_left rest0 < S (lines_left rest))%nat /\
        trace loads streaming_text rest =
          (content :: fst (trace loads streaming_text' rest0),
           snd (trace loads streaming_text' rest0))
    | LoopEnd streaming_text' =>
        streaming_text' = streaming_text /\
        trace loads streaming_text rest = ([], inr streaming_text)
    | LoopRaise e => trace loads streaming_text rest = ([], inl e)
    end).
  { destruct (loop loads streaming_text rest); intuition lia. }
  destruct (truthy line); [|exact Hskip].
  destruct (try_line loads line) as [e|[content|]]; [| |exact Hskip].
  - destruct e; auto.
  - split; [reflexivity|]. split; [lia|].
    destruct (trace loads (streaming_text ++ content) rest); reflexivity.
Qed.

Lemma iterate_suspended fuel : forall prompt raw streaming_text src self,
  (lines_left src < fuel)%nat ->
  iterate loads fuel
    {| g_prompt := prompt; g_raw := raw; g_frame := Suspended streaming_text src |}
    self
  = Some (outcome loads prompt raw streaming_text src self).
Proof.
  induction fuel as [|fuel IH]; intros prompt raw streaming_text src self Hlt; [lia|].
  cbn [iterate next g_frame]. unfold resume, outcome. cbn [g_prompt g_raw].
  pose proof (loop_trace streaming_text src) as Hl.
  destruct (loop loads streaming_text src) as [content st' rest|st'|e].
  - destruct Hl as (-> & Hlen & ->).
    rewrite IH by lia. unfold outcome.
    destruct (trace loads (streaming_text ++ content) rest) as [cs r]. cbn [fst snd].
    destruct (settle prompt r self). reflexivity.
  - destruct Hl as (-> & ->). unfold settle.
    destruct (finalize prompt streaming_text self) as [[e|] self']; reflexivity.
  - rewrite Hl. reflexivity.
Qed.

Lemma consume_session prompt raw world self :
  consume loads (for_stream prompt raw world) self
  = Some (session loads prompt raw world self).
Proof.
  unfold consume, enough, for_stream, session. cbn [g_frame].
  destruct world as [e|response]; [reflexivity|].
  cbn [iterate next g_frame g_prompt g_raw].
  destruct (ok response); cbn [negb]; [|reflexivity].
  pose proof (iterate_suspended (S (lines_left (iter_lines response)))
                prompt raw [] (iter_lines response) self) as H.
  cbn [iterate next g_frame g_prompt g_raw] in H. apply H. lia.
Qed.

Lemma trace_accumulates : forall src streaming_text cs final,
  trace loads streaming_text src = (cs, inr final) ->
  final = streaming_text ++ concat cs.
Proof.
  induction src as [|line rest IH|e]; intros streaming_text cs final; cbn [trace].
  - intros [= <- <-]. cbn. by rewrite app_nil_r.
  - destruct (truthy line); [|apply IH].
    destruct (try_line loads line) as [e|[content|]]; [| |apply IH].
    + destruct e; try discriminate; apply IH.
    + destruct (trace loads (streaming_text ++ content) rest) as [cs' r] eqn:Ht.
      intros [= <- ->]. apply IH in Ht. rewrite Ht. cbn. by rewrite app_assoc.
  - discriminate.
Qed.

Lemma content_of_wrap raw content : content_of (wrap raw content) = content.
Proof.
  unfold content_of, wrap. destruct raw; [reflexivity|].
  by rewrite lookup_singleton_eq.
Qed.

Lemma contents_of_wrap raw cs : map content_of (map (wrap raw) cs) = cs.
Proof.
  induction cs as [|c cs IH]; cbn [map]; [reflexivity|].
  by rewrite content_of_wrap, IH.
Qed.

Lemma trace_skip line rest streaming_text :
  skipped loads line ->
  trace loads streaming_text (Line line rest) = trace loads streaming_text rest.
Proof.
  intros [H|[[m H]|H]]; cbn [trace]; rewrite H; [reflexivity| |];
    destruct (truthy line); reflexivity.
Qed.

Lemma trace_lines_then ls : forall tail streaming_text,
  trace loads streaming_text (lines_then ls tail) =
  match trace loads streaming_text (lines_then ls Exhausted) with
  | (cs, inr mid) =>
      (cs ++ fst (trace loads mid tail), snd (trace loads mid tail))
  | (cs, inl e) => (cs, inl e)
  end.
Proof.
  induction ls as [|l ls IH]; intros tail streaming_text; cbn [lines_then trace].
  - by destruct (trace loads streaming_text tail).
  - destruct (truthy l); [|apply IH].
    destruct (try_line loads l) as [e|[content|]]; [| |apply IH].
    + destruct e; try reflexivity; apply IH.
    + rewrite (IH tail).
      destruct (trace loads (streaming_text ++ content) (lines_then ls Exhausted))
        as [cs [e|mid]]; reflexivity.
Qed.

Lemma trace_skip_within pre line post streaming_text :
  skipped loads line ->
  trace loads streaming_text (lines_then pre (Line line post))
  = trace loads streaming_text (lines_then pre post).
Proof.
  intros Hs. rewrite (trace_lines_then pre (Line line post)).
  rewrite (trace_lines_then pre post).
  destruct (trace loads streaming_text (lines_then pre Exhausted)) as [cs [e|mid]];
    [reflexivity|].
  by rewrite trace_skip.
Qed.

Lemma try_line_decode_error line m :
  loads line = inl (JSONDecodeError m) ->
  try_line loads line = inl (JSONDecodeError m).
Proof. intros H. unfold try_line. by rewrite H. Qed.

(** The shape test is exact: a line gives a fragment when, and only when,
    it decodes to a list of two items, the first equal to 3 and the second
    a [str]. *)
Lemma try_line_fragment line content :
  try_line loads line = inr (Some content) <->
  exists first, loads line = inr (JArr [first; JStr content]) /\ eq_3 first = true.
Proof.
  unfold try_line. split.
  - destruct (loads line) as [e|data]; [discriminate|]. cbn [bind].
    destruct data as [| | | |s|items|items]; try discriminate; cbn [len bind ret].
    + destruct (Z.of_nat (length s) =? 2); [|discriminate].
      cbn [getitem]. destruct (s !! 0%nat); discriminate.
    + destruct items as [|first [|second [|third items]]]; try discriminate.
      * cbn. destruct (eq_3 first) eqn:E3; [|discriminate].
        destruct second; try discriminate. cbn.
        intros [= ->]. eauto.
      * destruct (Z.of_nat (length (first :: second :: third :: items)) =? 2) eqn:E;
          [|discriminate].
        apply Z.eqb_eq in E. cbn [length] in E. lia.
    + destruct (Z.of_nat (length items) =? 2); discriminate.
  - intros (first & -> & E3). cbn. rewrite E3. reflexivity.
Qed.

(** The values the shape test cannot look at: [len] raises on a number, a
    boolean and [null], and indexing a two-key object with [0] raises. *)
Lemma try_line_raises line data :
  loads line = inr data ->
  match data with
  | JNull | JBool _ | JInt _ | JFloat _ =>
      try_line loads line
      = inl (TypeError (str "object of type '" ++ type_name data ++ str "' has no len()"))
  | JObj [_; _] => try_line loads line = inl (KeyError (str "0"))
  | _ => exists r, try_line loads line = inr r
  end.
Proof.
  intros H. unfold try_line. rewrite H. cbn [bind].
  destruct data as [| | | |s|items|items]; try reflexivity; cbn [len bind ret].
  - destruct s as [|c s]; [cbn; eauto|].
    destruct (Z.of_nat (length (c :: s)) =? 2); cbn; eauto.
  - destruct (Z.of_nat (length items) =? 2) eqn:E; [|eauto].
    apply Z.eqb_eq in E.
    destruct items as [|first [|second [|third items]]]; cbn [length] in E; try lia.
    cbn. destruct (eq_3 first); [|eauto]. destruct second; cbn; eauto.
  - destruct items as [|a [|b [|c items]]]; cbn; eauto.
    destruct (Z.of_nat (S (S (S (length items)))) =? 2) eqn:E; [|eauto].
    apply Z.eqb_eq in E. lia.
Qed.

Lemma lines_then_app ls1 ls2 tail :
  lines_then (ls1 ++ ls2) tail = lines_then ls1 (lines_then ls2 tail).
Proof. induction ls1 as [|l ls1 IH]; cbn [app lines_then]; by rewrite ?IH. Qed.

Lemma trace_from src : forall streaming_text,
  trace loads streaming_text src =
  (fst (trace loads [] src),
   match snd (trace loads [] src) with
   | inr final => inr (streaming_text ++ final)
   | inl e => inl e
   end).
Proof.
  induction src as [|line rest IH|e]; intros streaming_text; cbn [trace fst snd].
  - by rewrite app_nil_r.
  - destruct (truthy line); [|apply IH].
    destruct (try_line loads line) as [e|[content|]]; [| |apply IH].
    + destruct e; try reflexivity; apply IH.
    + rewrite (IH (streaming_text ++ content)), (IH ([] ++ content)).
      destruct (trace loads [] rest) as [cs [e|final]]; cbn [fst snd app];
        [reflexivity|]. by rewrite app_assoc.
  - reflexivity.
Qed.

Lemma harmless_try_line line :
  truthy line = true -> Partial.harmless loads line = true ->
  match try_line loads line with
  | inr r => r = Partial.fragment loads line
  | inl (JSONDecodeError _) => Partial.fragment loads line = None
  | inl _ => False
  end.
Proof.
  intros Ht. unfold Partial.harmless, Partial.fragment. rewrite Ht.
  destruct (loads line) as [e|data] eqn:Hl.
  - destruct e; try discriminate. intros _.
    by rewrite (try_line_decode_error line msg Hl).
  - intros [Hs Hk]%andb_prop.
    pose proof (try_line_raises line data Hl) as Hr.
    pose proof (try_line_fragment line) as Hf.
    assert (Hsome : forall c, try_line loads line = inr (Some c) ->
              inr (Some c)
              = (inr (match data with
                      | JArr [first; JStr content] =>
                          if eq_3 first then Some content else None
                      | _ => None
                      end) : result (option pystr))).
    { intros c Hc. apply Hf in Hc as (first & Hd & H3). rewrite Hl in Hd.
      injection Hd as ->. by rewrite H3. }
    assert (Hnone : try_line loads line = inr None ->
              match data with
              | JArr [first; JStr content] =>
                  if eq_3 first then Some content else None
              | _ => None
              end = None).
    { intros Hn.
      destruct data as [| | | | |[|first [|[| | | |c| |] [|]]]|]; try reflexivity.
      destruct (eq_3 first) eqn:H3; [|reflexivity].
      assert (Hc : try_line loads line = inr (Some c)) by (apply Hf; eauto).
      rewrite Hn in Hc. discriminate. }
    assert (Hres : exists r, try_line loads line = inr r).
    { destruct data as [| | | | | |[|a [|b [|]]]]; try discriminate; exact Hr. }
    destruct Hres as [[c|] Hr']; rewrite Hr'.
    + specialize (Hsome c Hr'). by injection Hsome.
    + by rewrite (Hnone Hr').
Qed.

Lemma trace_harmless ls : forall streaming_text tail,
  forallb (Partial.harmless loads) ls = true ->
  trace loads streaming_text (lines_then ls tail) =
  (omap (Partial.fragment loads) ls
     ++ fst (trace loads (streaming_text ++ concat (omap (Partial.fragment loads) ls)) tail),
   snd (trace loads (streaming_text ++ concat (omap (Partial.fragment loads) ls)) tail)).
Proof.
  induction ls as [|l ls IH]; intros streaming_text tail; cbn [lines_then forallb].
  - intros _. cbn [omap list_omap concat app]. rewrite app_nil_r.
    by destruct (trace loads streaming_text tail).
  - intros [Hl Hls]%andb_prop. cbn [trace omap list_omap].
    destruct (truthy l) eqn:Ht.
    + pose proof (harmless_try_line l Ht Hl) as Hstep.
      destruct (try_line loads l) as [e|[c|]].
      * destruct e; try done. rewrite Hstep. by apply IH.
      * rewrite <- Hstep. rewrite (IH (streaming_text ++ c) tail Hls).
        cbn [concat app fst snd]. by rewrite <- !app_assoc.
      * rewrite <- Hstep. by apply IH.
    + assert (Hf : Partial.fragment loads l = None).
      { unfold Partial.fragment. by rewrite Ht. }
      rewrite Hf. by apply IH.
Qed.

(** The decode of a list of harmless lines: it yields their fragments in
    order, ends normally and runs the two statements after the loop. *)
Lemma harmless_session prompt raw response ls self :
  ok response = true ->
  iter_lines response = lines_then ls Exhausted ->
  forallb (Partial.harmless loads) ls = true ->
  session loads prompt raw (PostReturns response) self
  = (map (wrap raw) (omap (Partial.fragment loads) ls), Returned,
     {| last_response :=
          <[ str "text" := concat (omap (Partial.fragment loads) ls) ]> (last_response self);
        conversation :=
          conversation self ++ [(prompt, concat (omap (Partial.fragment loads) ls))] |}).
Proof.
  intros Hok Hlines Hh. unfold session, outcome. rewrite Hok, Hlines.
  rewrite (trace_harmless ls [] Exhausted Hh). cbn [trace fst snd app].
  rewrite app_nil_r. unfold settle. by rewrite finalize_ok.
Qed.

End DecoderFacts.

(** ** The stream decoder *)

(** C1: on the lines [[3,"Hello"]], an empty line, [not json] and
    [[3," world"]] the decode in normal mode yields the record
    [{text: "Hello"}] and then [{text: " world"}], ends normally and leaves
    ["Hello world"] as the final text (handed to the history with the
    prompt); in raw mode it yields the bare strings ["Hello"] and
    [" world"]. *)
Theorem hello_world_decode prompt self :
  let final :=
    {| last_response := <[ str "text" := str "Hello world" ]> (last_response self);
       conversation := conversation self ++ [(prompt, str "Hello world")] |} in
  consume Json.loads
    (for_stream prompt false (streamed (lines_then hello_lines Exhausted))) self
  = Some ([Wrapped {[ str "text" := str "Hello" ]};
           Wrapped {[ str "text" := str " world" ]}], Returned, final)
  /\ consume Json.loads
       (for_stream prompt true (streamed (lines_then hello_lines Exhausted))) self
     = Some ([Raw (str "Hello"); Raw (str " world")], Returned, final)
  /\ last_response final !! str "text" = Some (str "Hello world").
Proof.
  assert (Ht : trace Json.loads [] (lines_then hello_lines Exhausted)
               = ([str "Hello"; str " world"], inr (str "Hello world")))
    by (vm_compute; reflexivity).
  cbv zeta. rewrite !consume_session. unfold session, streamed, outcome.
  cbn [ok iter_lines]. rewrite Ht. unfold settle. rewrite finalize_ok.
  repeat split. cbn [last_response]. apply lookup_insert_eq.
Qed.

(** What [json.loads] and the shape test make of some lines. *)

Example loads_hello_line :
  Json.loads hello_line = inr (JArr [JInt 3; JStr (str "Hello")]).
Proof. vm_compute; reflexivity. Qed.

Example loads_not_json : Json.loads (str "not json") = inl (JSONDecodeError []).
Proof. vm_compute; reflexivity. Qed.

Example wrong_tag_is_skipped :
  try_line Json.loads (str "[5," ++ dq ++ str "ignored" ++ dq ++ str "]") = inr None.
Proof. vm_compute; reflexivity. Qed.

Example float_tag_is_a_fragment :
  try_line Json.loads (str "[3.0," ++ dq ++ str "x" ++ dq ++ str "]")
  = inr (Some (str "x")).
Proof. vm_compute; reflexivity. Qed.

Example boolean_tag_is_skipped :
  try_line Json.loads (str "[true," ++ dq ++ str "x" ++ dq ++ str "]") = inr None.
Proof. vm_compute; reflexivity. Qed.

Example number_line_raises :
  try_line Json.loads (str "5")
  = inl (TypeError (str "object of type 'int' has no len()")).
Proof. vm_compute; reflexivity. Qed.

Example two_key_object_raises :
  try_line Json.loads
    (str "{" ++ dq ++ str "a" ++ dq ++ str ":1," ++ dq ++ str "b" ++ dq ++ str ":2}")
  = inl (KeyError (str "0")).
Proof. vm_compute; reflexivity. Qed.

(** C2: a line that decodes to a value without a length aborts the decode.
    On the lines [[3,"Hello"]], [null], [[3," world"]] the generator yields
    the first fragment, then raises [FailedToGenerateResponseError] for the
    [TypeError] of [len(None)]: the last fragment is never yielded and the
    object is left as it was. *)
Theorem null_line_aborts_decode prompt self :
  consume Json.loads
    (for_stream prompt false (streamed (lines_then null_lines Exhausted))) self
  = Some ([Wrapped {[ str "text" := str "Hello" ]}],
          Raised (FailedToGenerateResponseError
                    (str "An unexpected error occurred: object of type 'NoneType' has no len()")),
          self).
Proof.
  assert (Ht : trace Json.loads [] (lines_then null_lines Exhausted)
               = ([str "Hello"],
                  inl (TypeError (str "object of type 'NoneType' has no len()"))))
    by (vm_compute; reflexivity).
  rewrite consume_session. unfold session, streamed, outcome.
  cbn [ok iter_lines]. rewrite Ht. reflexivity.
Qed.

(** C3: a non-empty line that [json.loads] rejects is skipped: the decode
    of the lines with it is the decode of the lines without it (the same
    chunks, the same ending, the same final text), and it gives a result.
    The decode goes on after it: when the lines before it decode to their
    end with the chunks [cs] and the lines after it are harmless, the
    decode yields [cs] and then the fragment of every later line, in
    order, ends normally and leaves the concatenation of all of them as
    the final text. *)
Theorem malformed_line_skipped loads prompt raw pre line post self m :
  truthy line = true ->
  loads line = inl (JSONDecodeError m) ->
  consume loads (for_stream prompt raw (streamed (lines_then pre (Line line post)))) self
  = consume loads (for_stream prompt raw (streamed (lines_then pre post))) self
  /\ is_Some
       (consume loads (for_stream prompt raw (streamed (lines_then pre (Line line post)))) self)
  /\ (forall cs self1 later,
        consume loads (for_stream prompt raw (streamed (lines_then pre Exhausted))) self
        = Some (cs, Returned, self1) ->
        forallb (Partial.harmless loads) later = true ->
        consume loads
          (for_stream prompt raw
             (streamed (lines_then pre (Line line (lines_then later Exhausted))))) self
        = Some (cs ++ map (wrap raw) (omap (Partial.fragment loads) later), Returned,
                {| last_response :=
                     <[ str "text" := concat (map content_of cs)
                                        ++ concat (omap (Partial.fragment loads) later) ]>
                       (last_response self);
                   conversation :=
                     conversation self
                       ++ [(prompt, concat (map content_of cs)
                                      ++ concat (omap (Partial.fragment loads) later))] |})).
Proof.
  intros Hne Hbad.
  assert (Hskip : skipped loads line).
  { right; left. exists m. by apply try_line_decode_error. }
  rewrite !consume_session. split; [|split; [eauto|]].
  - unfold session, streamed, outcome. cbn [ok iter_lines].
    by rewrite trace_skip_within.
  - intros cs self1 later. rewrite !consume_session.
    unfold session, streamed, outcome. cbn [ok iter_lines].
    rewrite (trace_skip_within loads pre line (lines_then later Exhausted) [] Hskip).
    rewrite (trace_lines_then loads pre (lines_then later Exhausted)).
    destruct (trace loads [] (lines_then pre Exhausted)) as [t1 [e|mid]] eqn:H1.
    { cbn [settle]. intros H. inversion H. }
    unfold settle at 1. rewrite finalize_ok. intros [= <- _] Hh.
    apply trace_accumulates in H1. cbn [app] in H1. subst mid.
    rewrite (trace_harmless loads later (concat t1) Exhausted Hh).
    cbn [trace fst snd settle]. rewrite finalize_ok, app_nil_r, map_app.
    by rewrite contents_of_wrap.
Qed.

Lemma malformed_line_skipped_witness :
  truthy (str "not json") = true /\
  Json.loads (str "not json") = inl (JSONDecodeError []) /\
  consume Json.loads
    (for_stream (str "hi") false
       (streamed (lines_then [hello_line; []]
                    (Line (str "not json") (lines_then [world_line] Exhausted)))))
    fresh
  = Some ([Wrapped {[ str "text" := str "Hello" ]};
           Wrapped {[ str "text" := str " world" ]}], Returned,
          {| last_response := <[ str "text" := str "Hello world" ]> ∅;
             conversation := [(str "hi", str "Hello world")] |}).
Proof.
  split; [reflexivity|]. split; [vm_compute; reflexivity|].
  refine (eq_trans
            (proj2 (proj2
               (malformed_line_skipped Json.loads (str "hi") false [hello_line; []]
                  (str "not json") Exhausted fresh [] _ _))
               [Wrapped {[ str "text" := str "Hello" ]}]
               {| last_response := <[ str "text" := str "Hello" ]> ∅;
                  conversation := [(str "hi", str "Hello")] |}
               [world_line] _ _) _);
    vm_compute; reflexivity.
Defined.


(** C4: when the line source raises a [RequestException] after lines that
    decode without a fatal error, the generator yields the chunks of those
    lines, then raises [ProviderConnectionError]; the object is left as it
    was: no final text, no history entry. *)
Theorem transport_error_mid_stream loads prompt raw pre m self cs self' :
  consume loads (for_stream prompt raw (streamed (lines_then pre Exhausted))) self
  = Some (cs, Returned, self') ->
  consume loads
    (for_stream prompt raw (streamed (lines_then pre (Broken (RequestException m))))) self
  = Some (cs, Raised (ProviderConnectionError (str "Request failed: " ++ m)), self).
Proof.
  rewrite !consume_session. unfold session, streamed, outcome. cbn [ok iter_lines].
  rewrite (trace_lines_then loads pre (Broken (RequestException m))).
  destruct (trace loads [] (lines_then pre Exhausted)) as [cs0 [e|mid]].
  - cbn [settle]. intros H. inversion H.
  - unfold settle at 1. rewrite finalize_ok. intros [= <- _].
    cbn [trace fst snd settle handle]. by rewrite app_nil_r.
Qed.

Lemma transport_error_mid_stream_witness :
  consume Json.loads
    (for_stream (str "hi") false
       (streamed (lines_then [hello_line] (Broken (RequestException (str "Connection broken"))))))
    fresh
  = Some ([Wrapped {[ str "text" := str "Hello" ]}],
          Raised (ProviderConnectionError (str "Request failed: Connection broken")),
          fresh).
Proof.
  apply (transport_error_mid_stream Json.loads (str "hi") false [hello_line]
           (str "Connection broken") fresh
           [Wrapped {[ str "text" := str "Hello" ]}]
           {| last_response := <[ str "text" := str "Hello" ]> ∅;
              conversation := [(str "hi", str "Hello")] |}).
  vm_compute; reflexivity.
Defined.


(** C5: when the response is not ok, the first [next] raises
    [FailedToGenerateResponseError] with the status code and the body in
    its message; nothing is yielded, no line is read and the object is left
    as it was. *)
Theorem bad_status_no_decode loads prompt raw response self :
  ok response = false ->
  let failure :=
    FailedToGenerateResponseError
      (str "An unexpected error occurred: Request failed with status code "
         ++ format_int (status_code response) ++ str ": " ++ text response) in
  next loads (for_stream prompt raw (PostReturns response)) self
  = (Raise failure, {| g_prompt := prompt; g_raw := raw; g_frame := Closed |}, self)
  /\ consume loads (for_stream prompt raw (PostReturns response)) self
     = Some ([], Raised failure, self).
Proof.
  intros Hok. cbv zeta. rewrite consume_session.
  unfold next, session, for_stream. cbn [g_frame g_prompt g_raw]. rewrite Hok.
  cbn [negb handle str_of_exn]. split; reflexivity.
Qed.

Lemma bad_status_no_decode_witness :
  ok not_found = false /\
  consume Json.loads (for_stream (str "hi") false (PostReturns not_found)) fresh
  = Some ([],
          Raised (FailedToGenerateResponseError
                    (str "An unexpected error occurred: Request failed with status code 404: Not Found")),
          fresh).
Proof.
  split; [reflexivity|].
  apply (bad_status_no_decode Json.loads (str "hi") false not_found fresh).
  reflexivity.
Defined.


(** Every session gives a result, and the object changes only by the two
    statements after the loop. *)
Lemma session_ends loads prompt raw world self :
  exists cs e self',
    consume loads (for_stream prompt raw world) self = Some (cs, e, self') /\
    match e with
    | Returned =>
        let final := concat (map content_of cs) in
        last_response self' = <[ str "text" := final ]> (last_response self) /\
        conversation self' = conversation self ++ [(prompt, final)]
    | Raised _ => self' = self
    end.
Proof.
  rewrite consume_session. unfold session.
  destruct world as [e|response]; [by eexists _, _, _|].
  destruct (ok response); [|by eexists _, _, _].
  unfold outcome.
  destruct (trace loads [] (iter_lines response)) as [cs [e|final]] eqn:Ht.
  - by eexists _, _, _.
  - unfold settle. rewrite finalize_ok. eexists _, _, _. split; [reflexivity|].
    cbv zeta. rewrite contents_of_wrap.
    apply trace_accumulates in Ht. cbn [app] in Ht. subst final. by split.
Qed.

(** C6: every session gives a result; when it ends normally the final
    text is the concatenation, in order, of the texts of the chunks
    yielded, it is stored under [text] and handed once, with the prompt,
    to the history; when it ends by an exception the object is left as it
    was.  A response whose lines are harmless and come to their end does
    end normally: the decode yields the fragments of the lines and the two
    statements after the loop are run. *)
Theorem finalize_on_normal_end loads prompt raw world self :
  (exists cs e self',
     consume loads (for_stream prompt raw world) self = Some (cs, e, self') /\
     match e with
     | Returned =>
         let final := concat (map content_of cs) in
         last_response self' = <[ str "text" := final ]> (last_response self) /\
         conversation self' = conversation self ++ [(prompt, final)]
     | Raised _ => self' = self
     end) /\
  (forall response ls,
     ok response = true ->
     iter_lines response = lines_then ls Exhausted ->
     forallb (Partial.harmless loads) ls = true ->
     consume loads (for_stream prompt raw (PostReturns response)) self
     = Some (map (wrap raw) (omap (Partial.fragment loads) ls), Returned,
             {| last_response :=
                  <[ str "text" := concat (omap (Partial.fragment loads) ls) ]>
                    (last_response self);
                conversation :=
                  conversation self
                    ++ [(prompt, concat (omap (Partial.fragment loads) ls))] |})).
Proof.
  split; [apply session_ends|].
  intros response ls Hok Hlines Hh. rewrite consume_session.
  f_equal. by apply harmless_session.
Qed.

Lemma finalize_on_normal_end_witness :
  consume Json.loads
    (for_stream (str "hi") false
       (PostReturns {| ok := true; status_code := 200; text := [];
                       iter_lines := lines_then hello_lines Exhausted |}))
    fresh
  = Some ([Wrapped {[ str "text" := str "Hello" ]};
           Wrapped {[ str "text" := str " world" ]}], Returned,
          {| last_response := <[ str "text" := str "Hello world" ]> ∅;
             conversation := [(str "hi", str "Hello world")] |}).
Proof.
  refine (eq_trans
            (proj2 (finalize_on_normal_end Json.loads (str "hi") false
                      (PostRaises (Exception [])) fresh)
               {| ok := true; status_code := 200; text := [];
                  iter_lines := lines_then hello_lines Exhausted |}
               hello_lines _ _ _) _);
    vm_compute; reflexivity.
Defined.

(** C7: the decode of a static list of lines depends on the lines and on
    the raw flag only: two sessions over the same lines, with any prompts
    and from any two states of the object, give the same chunks and the
    same ending, and after a normal end the same final text. *)
Theorem decode_deterministic loads raw ls prompt1 prompt2 self1 self2 :
  exists cs e self1' self2',
    consume loads (for_stream prompt1 raw (streamed (lines_then ls Exhausted))) self1
    = Some (cs, e, self1') /\
    consume loads (for_stream prompt2 raw (streamed (lines_then ls Exhausted))) self2
    = Some (cs, e, self2') /\
    match e with
    | Returned =>
        last_response self1' !! str "text" = Some (concat (map content_of cs)) /\
        last_response self2' !! str "text" = Some (concat (map content_of cs))
    | Raised _ => self1' = self1 /\ self2' = self2
    end.
Proof.
  rewrite !consume_session. unfold session, streamed, outcome. cbn [ok iter_lines].
  destruct (trace loads [] (lines_then ls Exhausted)) as [cs [e|final]] eqn:Ht.
  - cbn [settle]. by eexists _, _, _, _.
  - unfold settle. rewrite !finalize_ok. eexists _, _, _, _.
    split; [reflexivity|]. split; [reflexivity|].
    cbn [last_response]. rewrite contents_of_wrap, !lookup_insert_eq.
    apply trace_accumulates in Ht. cbn [app] in Ht. by subst final.
Qed.

(** C10: [ask] with [stream=True] returns the generator and does nothing
    else; [ask] with [stream=False] runs that generator to its end: when an
    iteration over it ends normally, [ask] returns the [last_response] that
    the iteration leaves, whose [text] is the concatenation of the chunks'
    texts, and when it ends by an exception, [ask] raises that exception.
    The object is left in the same state either way.  On a response whose
    lines are harmless and come to their end [ask] with [stream=False]
    does return: the record holds, under [text], the concatenation of the
    fragments that the streaming mode yields one by one. *)
Theorem non_stream_agrees_with_stream loads prompt raw world self :
  (exists cs e self',
     ask loads prompt true raw world self
     = Some (inr (Streaming (for_stream prompt raw world)), self) /\
     consume loads (for_stream prompt raw world) self = Some (cs, e, self') /\
     match e with
     | Returned =>
         ask loads prompt false raw world self
         = Some (inr (Complete (last_response self')), self') /\
         last_response self' !! str "text" = Some (concat (map content_of cs))
     | Raised x => ask loads prompt false raw world self = Some (inl x, self')
     end) /\
  (forall response ls,
     ok response = true ->
     iter_lines response = lines_then ls Exhausted ->
     forallb (Partial.harmless loads) ls = true ->
     let texts := omap (Partial.fragment loads) ls in
     let final :=
       {| last_response := <[ str "text" := concat texts ]> (last_response self);
          conversation := conversation self ++ [(prompt, concat texts)] |} in
     consume loads (for_stream prompt raw (PostReturns response)) self
     = Some (map (wrap raw) texts, Returned, final) /\
     ask loads prompt false raw (PostReturns response) self
     = Some (inr (Complete (<[ str "text" := concat texts ]> (last_response self))),
             final)).
Proof.
  split.
  - destruct (session_ends loads prompt raw world self)
      as (cs & e & self' & Hrun & Hend).
    exists cs, e, self'. split; [reflexivity|]. split; [exact Hrun|].
    unfold ask, for_non_stream. cbn [negb]. rewrite Hrun.
    destruct e as [|x]; [|reflexivity].
    split; [reflexivity|]. destruct Hend as [-> _]. apply lookup_insert_eq.
  - intros response ls Hok Hlines Hh. cbv zeta.
    assert (Hrun : consume loads (for_stream prompt raw (PostReturns response)) self
                   = Some (map (wrap raw) (omap (Partial.fragment loads) ls), Returned,
                           {| last_response :=
                                <[ str "text" := concat (omap (Partial.fragment loads) ls) ]>
                                  (last_response self);
                              conversation :=
                                conversation self
                                  ++ [(prompt, concat (omap (Partial.fragment loads) ls))] |})).
    { rewrite consume_session. f_equal. by apply harmless_session. }
    split; [exact Hrun|].
    unfold ask, for_non_stream. cbn [negb]. by rewrite Hrun.
Qed.

Lemma non_stream_agrees_with_stream_witness :
  consume Json.loads
    (for_stream (str "hi") true
       (PostReturns {| ok := true; status_code := 200; text := [];
                       iter_lines := lines_then hello_lines Exhausted |}))
    fresh
  = Some ([Raw (str "Hello"); Raw (str " world")], Returned,
          {| last_response := <[ str "text" := str "Hello world" ]> ∅;
             conversation := [(str "hi", str "Hello world")] |}) /\
  ask Json.loads (str "hi") false true
    (PostReturns {| ok := true; status_code := 200; text := [];
                    iter_lines := lines_then hello_lines Exhausted |})
    fresh
  = Some (inr (Complete (<[ str "text" := str "Hello world" ]> ∅)),
          {| last_response := <[ str "text" := str "Hello world" ]> ∅;
             conversation := [(str "hi", str "Hello world")] |}).
Proof.
  pose proof (proj2 (non_stream_agrees_with_stream Json.loads (str "hi") true
                       (PostRaises (Exception [])) fresh)
                {| ok := true; status_code := 200; text := [];
                   iter_lines := lines_then hello_lines Exhausted |}
                hello_lines eq_refl eq_refl) as H.
  assert (Hh : forallb (Partial.harmless Json.loads) hello_lines = true)
    by (vm_compute; reflexivity).
  destruct (H Hh) as [H1 H2]. split.
  - refine (eq_trans H1 _). vm_compute; reflexivity.
  - refine (eq_trans H2 _). vm_compute; reflexivity.
Defined.

(** ** The severity levels *)

Lemma upper_case_variant s NAME : case_variant s NAME -> upper s = NAME.
Proof.
  induction 1 as [|c C s NAME [HC Hc] _ IH]; [reflexivity|].
  unfold upper in *. cbn [flat_map]. rewrite IH.
  assert (Hu : upper_char c = [C]).
  { unfold upper_char.
    destruct Hc as [->| ->].
    - repeat match goal with
             | |- context [(?a <=? ?b)%N] => destruct (N.leb_spec a b)
             | |- context [(?a =? ?b)%N] => destruct (N.eqb_spec a b)
             end; cbn [andb]; try reflexivity; lia.
    - repeat match goal with
             | |- context [(?a <=? ?b)%N] => destruct (N.leb_spec a b)
             | |- context [(?a =? ?b)%N] => destruct (N.eqb_spec a b)
             end; cbn [andb]; try lia. f_equal. lia. }
  by rewrite Hu.
Qed.

Lemma getitem_name l : Level.getitem (name l) = Some l.
Proof. by destruct l. Qed.

Lemma getitem_Some key l : Level.getitem key = Some l -> name l = key.
Proof.
  unfold Level.getitem. intros H. apply find_some in H as [_ H].
  by apply bool_decide_eq_true in H.
Qed.

Lemma severity_names_members NAME v :
  (NAME, v) ∈ severity_names <-> exists l, name l = NAME /\ value l = v.
Proof.
  unfold severity_names. split.
  - intros H. repeat (apply elem_of_cons in H as [[= -> ->]|H]);
      [by exists DEBUG|by exists INFO|by exists WARNING|by exists ERROR|by exists CRITICAL|].
    by apply elem_of_nil in H.
  - intros [l [<- <-]]. destruct l; cbn [name value]; set_solver.
Qed.

Section Spelling.

Import Ordering.

Lemma no_ligature_tail C t : no_ligature (C :: t) = true -> no_ligature t = true.
Proof.
  cbn [no_ligature]. intros H. by apply andb_prop in H as [_ H].
Qed.

Lemma upper_char_spells c C :
  spells c C -> is_capital C = true -> upper_char c = [C].
Proof.
  unfold spells, is_capital, upper_char. intros Hs HC.
  apply andb_prop in HC as [H1 H2].
  apply N.leb_le in H1. apply N.leb_le in H2.
  repeat match goal with
         | |- context [(?a <=? ?b)%N] => destruct (N.leb_spec a b)
         | |- context [(?a =? ?b)%N] => destruct (N.eqb_spec a b)
         end; cbn [andb]; try (f_equal; lia).
Qed.

Lemma upper_of_spelling s : forall t,
  Forall2 spells s t -> forallb is_capital t = true -> upper s = t.
Proof.
  induction s as [|c s IH]; intros t Hs Hc; inversion Hs as [|? C ? t' Hc1 Hs1]; subst.
  - reflexivity.
  - cbn [forallb] in Hc. apply andb_prop in Hc as [HC Hc].
    unfold upper in *. cbn [flat_map].
    rewrite (upper_char_spells c C Hc1 HC), (IH t' Hs1 Hc). reflexivity.
Qed.

Lemma spelling_of_upper s : forall t,
  upper s = t -> no_ligature t = true -> forallb is_capital t = true ->
  Forall2 spells s t.
Proof.
  induction s as [|c s IH]; intros t Hu Hl Hc.
  - cbn in Hu. subst t. constructor.
  - unfold upper in Hu. cbn [flat_map] in Hu. fold (upper s) in Hu.
    revert Hu. unfold upper_char.
    repeat match goal with
           | |- context [if ?b then _ else _] => destruct b eqn:?
           end;
      intros <-; cbn [app] in Hl, Hc |- *;
      try (cbn in Hl; discriminate);
      (constructor;
       [ unfold spells;
         repeat match goal with
                | H : ((_ <=? _) && (_ <=? _))%N = true |- _ =>
                    apply andb_prop in H as [?%N.leb_le ?%N.leb_le]
                | H : (_ =? _)%N = true |- _ => apply N.eqb_eq in H
                end; lia
       | apply IH;
         [ reflexivity
         | by apply no_ligature_tail in Hl
         | cbn [forallb] in Hc; by apply andb_prop in Hc as [_ Hc] ] ]).
Qed.

Lemma name_letters l :
  no_ligature (name l) = true /\ forallb is_capital (name l) = true.
Proof. destruct l; split; vm_compute; reflexivity. Qed.

Lemma get_level_upper s l : get_level s = inr l <-> upper s = name l.
Proof.
  unfold get_level. split.
  - destruct (Level.getitem (upper s)) as [l'|] eqn:Hg; [|discriminate].
    intros [= ->]. symmetry. by apply getitem_Some.
  - intros ->. by rewrite getitem_name.
Qed.

Lemma spells_letter c C : spells c C -> is_capital C = true -> is_letter c = true.
Proof.
  unfold spells, is_capital, is_letter. intros Hs HC.
  apply andb_prop in HC as [H1%N.leb_le H2%N.leb_le].
  repeat match goal with
         | |- context [(?a <=? ?b)%N] => destruct (N.leb_spec a b)
         | |- context [(?a =? ?b)%N] => destruct (N.eqb_spec a b)
         end; cbn [andb orb]; try reflexivity; lia.
Qed.

Lemma spelling_letters s : forall t,
  Forall2 spells s t -> forallb is_capital t = true -> forallb is_letter s = true.
Proof.
  induction s as [|c s IH]; intros t Hs Hc; inversion Hs as [|? C ? t' Hc1 Hs1]; subst.
  - reflexivity.
  - cbn [forallb] in Hc |- *. apply andb_prop in Hc as [HC Hc].
    by rewrite (spells_letter c C Hc1 HC), (IH t' Hs1 Hc).
Qed.

End Spelling.

(** C8 (amended): a string that spells one of the five names letter by
    letter, each letter in upper or in lower case, a dotless i counting as
    an [i] since [str.upper] makes it an [I] (more generally, a string
    whose upper-casing is the name), is looked up to the level of that
    name, which has the number the specification gives it; every other
    string is refused with a [ValueError] that reports the string. *)
Theorem get_level_by_name s :
  (forall NAME v, (NAME, v) ∈ severity_names -> case_variant s NAME ->
     exists l, get_level s = inr l /\ name l = NAME /\ value l = v) /\
  (forall NAME v, (NAME, v) ∈ severity_names -> upper s = NAME ->
     exists l, get_level s = inr l /\ name l = NAME /\ value l = v) /\
  ((forall NAME v, (NAME, v) ∈ severity_names -> upper s <> NAME) ->
     get_level s = inl (ValueError (str "Invalid log level: " ++ s))) /\
  (forall NAME v, (NAME, v) ∈ severity_names -> Forall2 Ordering.spells s NAME ->
     exists l, get_level s = inr l /\ name l = NAME /\ value l = v) /\
  ((forall NAME v, (NAME, v) ∈ severity_names -> ~ Forall2 Ordering.spells s NAME) ->
     get_level s = inl (ValueError (str "Invalid log level: " ++ s))).
Proof.
  assert (Hup : forall NAME v, (NAME, v) ∈ severity_names -> upper s = NAME ->
            exists l, get_level s = inr l /\ name l = NAME /\ value l = v).
  { intros NAME v Hin Hs. apply severity_names_members in Hin as [l [Hn Hv]].
    exists l. unfold get_level. by rewrite Hs, <- Hn, getitem_name. }
  assert (Hno : (forall NAME v, (NAME, v) ∈ severity_names -> upper s <> NAME) ->
            get_level s = inl (ValueError (str "Invalid log level: " ++ s))).
  { intros Hno. unfold get_level.
    destruct (Level.getitem (upper s)) as [l|] eqn:Hg; [|reflexivity].
    apply getitem_Some in Hg. exfalso. apply (Hno (name l) (value l)); [|by rewrite Hg].
    apply severity_names_members. by exists l. }
  split; [|split; [exact Hup|split; [exact Hno|split]]].
  - intros NAME v Hin Hs. apply (Hup NAME v Hin). by apply upper_case_variant.
  - intros NAME v Hin Hs. apply (Hup NAME v Hin).
    apply severity_names_members in Hin as (l & <- & _).
    destruct (name_letters l) as [_ Hc]. by apply upper_of_spelling.
  - intros Hnot. apply Hno. intros NAME v Hin Hs. apply (Hnot NAME v Hin).
    apply severity_names_members in Hin as (l & <- & _).
    destruct (name_letters l) as [Hl Hc]. by apply spelling_of_upper.
Qed.

Lemma get_level_by_name_witness :
  (exists l, get_level (str "wArNiNg") = inr l /\ name l = str "WARNING" /\ value l = 30) /\
  get_level (str "verbose") = inl (ValueError (str "Invalid log level: verbose")).
Proof.
  split.
  - apply (proj1 (proj2 (get_level_by_name (str "wArNiNg"))) (str "WARNING") 30).
    + apply severity_names_members. by exists WARNING.
    + reflexivity.
  - apply (proj1 (proj2 (proj2 (get_level_by_name (str "verbose"))))).
    intros NAME v Hin.
    unfold severity_names in Hin.
    repeat (apply elem_of_cons in Hin as [[= -> ->]|Hin]); try discriminate.
    by apply elem_of_nil in Hin.
Defined.

(** The lookup of a dotless i followed by [nfo] succeeds, though the
    string is none of the five names in any case of the letters [A]-[Z]. *)
Lemma dotless_i_is_accepted :
  (forall NAME v, (NAME, v) ∈ severity_names ->
     ~ case_variant (305%N :: str "nfo") NAME) /\
  get_level (305%N :: str "nfo") = inr INFO.
Proof.
  split; [|reflexivity].
  intros NAME v _ H. unfold case_variant in H.
  inversion H as [|c C t T [HC Hc] _]; subst. lia.
Qed.

(** The letter case is the interpreter's: a dotless i is a lower-case I. *)
Example get_level_dotless_i :
  get_level (305%N :: str "nfo") = inr INFO.
Proof. reflexivity. Qed.


Lemma value_inj a b : value a = value b -> a = b.
Proof. by destruct a, b. Qed.

Lemma less_levels a b : less a (PLevel b) = inr (value a <? value b).
Proof. reflexivity. Qed.

(** C9 (amended): between two levels [<] is the order of their numbers:
    it is irreflexive, transitive and asymmetric, and of [a < b], [a = b],
    [b < a] exactly one holds.  Against a value that is not a level
    [__lt__] gives no order of its own: it answers [NotImplemented], and
    the comparison is what the reflected method of the other operand
    answers; it raises [TypeError] when that declines too, as [None], a
    [bool], an [int] and a [str] do. *)
Theorem level_order :
  (forall a b, __lt__ a (PLevel b) = Answer (value a <? value b)) /\
  (forall a, less a (PLevel a) = inr false) /\
  (forall a b c, less a (PLevel b) = inr true -> less b (PLevel c) = inr true ->
     less a (PLevel c) = inr true) /\
  (forall a b, less a (PLevel b) = inr true -> less b (PLevel a) = inr false) /\
  (forall a b,
     (less a (PLevel b) = inr true /\ a <> b /\ less b (PLevel a) = inr false) \/
     (less a (PLevel b) = inr false /\ a = b /\ less b (PLevel a) = inr false) \/
     (less a (PLevel b) = inr false /\ a <> b /\ less b (PLevel a) = inr true)) /\
  (forall a other, (forall l, other <> PLevel l) ->
     __lt__ a other = NotImplemented /\
     less a other
     = match reflected_gt other a with
       | Answer b => inr b
       | NotImplemented =>
           inl (TypeError (str "'<' not supported between instances of 'LogLevel' and '"
                             ++ Level.type_name other ++ str "'"))
       end) /\
  (forall a other, builtin other = true ->
     __lt__ a other = NotImplemented /\
     less a other
     = inl (TypeError (str "'<' not supported between instances of 'LogLevel' and '"
                         ++ Level.type_name other ++ str "'"))).
Proof.
  split; [reflexivity|]. split.
  { intros a. rewrite less_levels. f_equal. apply Z.ltb_irrefl. }
  split.
  { intros a b c. rewrite !less_levels. intros [= H1] [= H2]. f_equal. lia. }
  split.
  { intros a b. rewrite !less_levels. intros [= H]. f_equal. lia. }
  split.
  { intros a b. rewrite !less_levels.
    destruct (Z.lt_trichotomy (value a) (value b)) as [H|[H|H]].
    - left. repeat split; [f_equal; lia| |f_equal; lia]. intros ->. lia.
    - right; left. apply value_inj in H as ->.
      repeat split; f_equal; apply Z.ltb_irrefl.
    - right; right. repeat split; [f_equal; lia| |f_equal; lia]. intros ->. lia. }
  split.
  - intros a other H. destruct other; try (split; reflexivity). by destruct (H l).
  - intros a other H. destruct other; try discriminate; split; reflexivity.
Qed.

Lemma level_order_witness :
  less DEBUG (PLevel ERROR) = inr true /\
  less ERROR (PLevel DEBUG) = inr false /\
  __lt__ WARNING (PInt 30) = NotImplemented /\
  less WARNING (PInt 30)
  = inl (TypeError (str "'<' not supported between instances of 'LogLevel' and 'int'")).
Proof.
  destruct level_order as (_ & _ & Htrans & Hasym & _ & _ & Hbuiltin).
  assert (H : less DEBUG (PLevel ERROR) = inr true).
  { apply (Htrans DEBUG INFO ERROR); reflexivity. }
  split; [exact H|]. split; [exact (Hasym DEBUG ERROR H)|].
  apply (Hbuiltin WARNING (PInt 30)). reflexivity.
Defined.

(** A comparison with a value that is not a level can give an order: an
    object whose [__gt__] answers [True] is greater than every level. *)
Lemma less_agreeable_answers :
  (forall l, agreeable <> PLevel l) /\
  __lt__ DEBUG agreeable = NotImplemented /\
  less DEBUG agreeable = inr true.
Proof. repeat split. intros l. discriminate. Qed.


(** * Further properties of the code *)

(** ** [LogLevel]: the strings [get_level] accepts, the other operators *)

Section LevelFacts.

Import Ordering.

(** X1: [get_level] accepts exactly the strings that spell a name letter
    by letter, each letter in upper or in lower case (a dotless i counts
    as an [i]).  An accepted string has the length of the name and holds
    letters only: nothing is stripped, so a name with a space or a line
    end around it is refused. *)
Theorem get_level_accepts s l :
  (get_level s = inr l <-> Forall2 spells s (name l)) /\
  (get_level s = inr l ->
     length s = length (name l) /\ forallb is_letter s = true).
Proof.
  destruct (name_letters l) as [Hl Hc].
  assert (H : get_level s = inr l <-> Forall2 spells s (name l)).
  { rewrite get_level_upper. split.
    - intros Hu. by apply spelling_of_upper.
    - intros Hs. by apply upper_of_spelling. }
  split; [exact H|].
  intros Hg. apply H in Hg. split.
  - by apply Forall2_length in Hg.
  - by apply (spelling_letters s (name l)).
Qed.

Lemma get_level_accepts_witness :
  Forall2 spells (str "eRRor") (name ERROR) /\
  length (str "eRRor") = length (name ERROR) /\
  forallb is_letter (str "eRRor") = true.
Proof.
  assert (Hg : get_level (str "eRRor") = inr ERROR) by reflexivity.
  split.
  - exact (proj1 (proj1 (get_level_accepts (str "eRRor") ERROR)) Hg).
  - exact (proj2 (get_level_accepts (str "eRRor") ERROR) Hg).
Defined.

(** X2: with [__lt__] alone, [a > b] between two levels is answered by
    the reflected [b.__lt__(a)] and is the order of the numbers, while
    [a <= b] and [a >= b] raise [TypeError] for every two levels, equal
    ones included; [<] against any value is the comparison of the class.
    Against [None], a [bool], an [int] or a [str] every operator raises
    [TypeError]; against an object of another class the result is what the
    reflected method of that object answers, and [TypeError] when it
    declines. *)
Theorem only_less_and_greater :
  (forall a other, compare Lt a other = less a other) /\
  (forall a b, compare Gt a (PLevel b) = inr (value b <? value a)) /\
  (forall a b,
     compare Le a (PLevel b)
     = inl (TypeError
              (str "'<=' not supported between instances of 'LogLevel' and 'LogLevel'"))) /\
  (forall a b,
     compare Ge a (PLevel b)
     = inl (TypeError
              (str "'>=' not supported between instances of 'LogLevel' and 'LogLevel'"))) /\
  (forall op a other, builtin other = true ->
     compare op a other
     = inl (TypeError (str "'" ++ symbol op
                         ++ str "' not supported between instances of 'LogLevel' and '"
                         ++ Level.type_name other ++ str "'"))) /\
  (forall op a cls methods,
     compare op a (PObject cls methods)
     = match methods (reflected op) a with
       | Answer b => inr b
       | NotImplemented =>
           inl (TypeError (str "'" ++ symbol op
                             ++ str "' not supported between instances of 'LogLevel' and '"
                             ++ cls ++ str "'"))
       end).
Proof.
  split.
  { intros a other. unfold compare, less. cbn [richcompare].
    by destruct other. }
  split; [reflexivity|]. split; [reflexivity|]. split; [reflexivity|]. split.
  - intros op a other Hb. destruct other; try discriminate; by destruct op.
  - intros op a cls methods. unfold compare.
    destruct op; cbn [richcompare __lt__ reflected_answer];
      by destruct (methods _ a).
Qed.

Lemma only_less_and_greater_witness :
  compare Level.Gt ERROR (PLevel INFO) = inr true /\
  compare Level.Ge ERROR (PInt 40)
  = inl (TypeError (str "'>=' not supported between instances of 'LogLevel' and 'int'")).
Proof.
  destruct only_less_and_greater as (_ & Hgt & _ & _ & Hbuiltin & _).
  split; [exact (Hgt ERROR INFO)|].
  apply (Hbuiltin Level.Ge ERROR (PInt 40)). reflexivity.
Defined.

End LevelFacts.

(** ** [for_stream]: partial iteration, failures, composition *)

Section StreamFacts.

Import Partial.

Variable loads : pystr -> result json.

Lemma take_suspended n : forall prompt raw streaming_text src self,
  let '(cs, g', self') :=
    take loads n
      {| g_prompt := prompt; g_raw := raw; g_frame := Suspended streaming_text src |}
      self in
  match g_frame g' with
  | Suspended streaming_text' _ =>
      self' = self /\
      streaming_text' = streaming_text ++ concat (map content_of cs) /\
      length cs = n
  | NotStarted _ => False
  | Closed => True
  end.
Proof.
  induction n as [|n IH]; intros prompt raw streaming_text src self.
  - cbn. by rewrite app_nil_r.
  - cbn [take next g_frame]. unfold resume. cbn [g_prompt g_raw].
    pose proof (loop_trace loads streaming_text src) as Hl.
    destruct (loop loads streaming_text src) as [content st' rest|st'|e].
    + destruct Hl as (-> & _ & _).
      specialize (IH prompt raw (streaming_text ++ content) rest self).
      destruct (take loads n _ self) as [[cs g'] self'].
      destruct (g_frame g') as [|st'' rest'|]; [done| |done].
      destruct IH as (-> & -> & <-). split; [done|]. split; [|done].
      cbn [map concat]. fold (wrap raw content).
      by rewrite content_of_wrap, app_assoc.
    + destruct (finalize prompt st' self) as [[e|] self']; exact I.
    + exact I.
Qed.

(** X3: as long as the generator has not finished, the object is
    untouched: a caller that stops after [n] chunks leaves
    [last_response] and the history as they were.  The text accumulated
    in the suspended frame is the concatenation of the chunks delivered. *)
Theorem early_stop_keeps_object n prompt raw world self :
  let '(cs, g', self') := take loads n (for_stream prompt raw world) self in
  match g_frame g' with
  | Suspended streaming_text _ =>
      self' = self /\ streaming_text = concat (map content_of cs) /\ length cs = n
  | NotStarted _ => self' = self /\ cs = []
  | Closed => True
  end.
Proof.
  destruct n as [|n]; [by destruct world|].
  unfold for_stream. cbn [take next g_frame g_prompt g_raw].
  destruct world as [e|response]; [exact I|].
  destruct (ok response); cbn [negb]; [|exact I].
  pose proof (take_suspended (S n) prompt raw [] (iter_lines response) self) as H.
  cbn [take next g_frame g_prompt g_raw] in H.
  unfold resume in *. cbn [g_prompt g_raw] in *.
  destruct (loop loads [] (iter_lines response)) as [content st' rest|st'|e];
    [|destruct (finalize prompt st' self) as [[e|] self']; exact I|exact I].
  destruct (take loads n _ self) as [[cs g'] self'].
  destruct (g_frame g'); [done| |done].
  cbn [app] in H. exact H.
Qed.

Lemma handle_forms e :
  (exists m, handle e = ProviderConnectionError (str "Request failed: " ++ m)) \/
  (exists m, handle e = InvalidResponseError (str "Failed to decode JSON response: " ++ m)) \/
  (exists m, handle e
             = FailedToGenerateResponseError (str "An unexpected error occurred: " ++ m)).
Proof. destruct e; cbn [handle]; eauto. Qed.

Lemma session_raised prompt raw world self cs e self' :
  session loads prompt raw world self = (cs, Raised e, self') ->
  exists e0, e = handle e0 /\ self' = self.
Proof.
  unfold session. destruct world as [e0|response].
  - intros H. exists e0. split; congruence.
  - destruct (ok response);
      [|intros H;
        exists (FailedToGenerateResponseError
                  (str "Request failed with status code "
                     ++ format_int (status_code response) ++ str ": " ++ text response));
        split; congruence].
    unfold outcome. destruct (trace loads [] (iter_lines response)) as [cs0 [e0|final]].
    + cbn [settle]. intros H. exists e0. split; congruence.
    + unfold settle. rewrite finalize_ok. discriminate.
Qed.

(** X4: whatever goes wrong, the caller only ever sees one of the three
    provider errors, with the message of its [except] clause, and the
    object is left as it was: no [RequestException], [TypeError] or
    [KeyError] escapes the generator. *)
Theorem failures_are_provider_errors prompt raw world self cs e self' :
  consume loads (for_stream prompt raw world) self = Some (cs, Raised e, self') ->
  provider_error e = true /\
  self' = self /\
  ((exists m, e = ProviderConnectionError (str "Request failed: " ++ m)) \/
   (exists m, e = InvalidResponseError (str "Failed to decode JSON response: " ++ m)) \/
   (exists m, e = FailedToGenerateResponseError
                    (str "An unexpected error occurred: " ++ m))).
Proof.
  rewrite consume_session. intros [= H].
  apply session_raised in H as (e0 & -> & ->).
  split; [by destruct e0|]. split; [reflexivity|]. apply handle_forms.
Qed.


(** X5: the raw flag changes the wrapping and nothing else: both modes
    deliver the same texts in the same order, end the same way and leave
    the object in the same state. *)
Theorem raw_changes_only_wrapping prompt world self :
  exists texts e self',
    consume loads (for_stream prompt true world) self
    = Some (map Raw texts, e, self') /\
    consume loads (for_stream prompt false world) self
    = Some (map (fun t => Wrapped {[ str "text" := t ]}) texts, e, self').
Proof.
  rewrite !consume_session. unfold session.
  destruct world as [e|response]; [by exists [], (Raised (handle e)), self|].
  destruct (ok response); [|by eexists [], _, _].
  unfold outcome.
  destruct (trace loads [] (iter_lines response)) as [cs r].
  destruct (settle prompt r self) as [e self']. by exists cs, e, self'.
Qed.

(** X6: decoding is compositional.  When the lines [ls1] decode to their
    end, the decode of [ls1 ++ ls2] delivers the chunks of [ls1] followed
    by those of [ls2] and ends as the decode of [ls2] does; after a normal
    end the final text is the two final texts joined. *)
Theorem decode_of_concatenation prompt raw ls1 ls2 self cs1 self1 cs2 e2 self2 :
  consume loads (for_stream prompt raw (streamed (lines_then ls1 Exhausted))) self
  = Some (cs1, Returned, self1) ->
  consume loads (for_stream prompt raw (streamed (lines_then ls2 Exhausted))) self
  = Some (cs2, e2, self2) ->
  exists self',
    consume loads
      (for_stream prompt raw (streamed (lines_then (ls1 ++ ls2) Exhausted))) self
    = Some (cs1 ++ cs2, e2, self') /\
    match e2 with
    | Returned =>
        last_response self' !! str "text"
        = Some (concat (map content_of cs1) ++ concat (map content_of cs2))
    | Raised _ => self' = self
    end.
Proof.
  rewrite !consume_session. unfold session, streamed, outcome. cbn [ok iter_lines].
  rewrite lines_then_app, (trace_lines_then loads ls1 (lines_then ls2 Exhausted)).
  destruct (trace loads [] (lines_then ls1 Exhausted)) as [t1 [e|mid]] eqn:H1.
  { cbn [settle]. intros H. inversion H. }
  unfold settle at 1. rewrite finalize_ok. intros [= <- _].
  apply trace_accumulates in H1. cbn [app] in H1. subst mid.
  rewrite (trace_from loads (lines_then ls2 Exhausted) (concat t1)).
  destruct (trace loads [] (lines_then ls2 Exhausted)) as [t2 [e|final]] eqn:H2;
    cbn [fst snd settle].
  - intros [= <- <- _]. eexists. rewrite map_app. split; reflexivity.
  - rewrite !finalize_ok. intros [= <- <- _]. eexists.
    rewrite map_app. split; [reflexivity|]. cbn [last_response].
    rewrite lookup_insert_eq, !contents_of_wrap.
    apply trace_accumulates in H2. cbn [app] in H2. by subst final.
Qed.


Lemma trace_count src : forall streaming_text,
  (length (fst (trace loads streaming_text src)) <= nonempty_lines src)%nat.
Proof.
  induction src as [|line rest IH|e]; intros streaming_text;
    cbn [trace nonempty_lines fst length]; [lia| |lia].
  destruct (truthy line); [|apply IH].
  destruct (try_line loads line) as [e|[content|]].
  - destruct e; cbn [fst length]; try lia;
      specialize (IH streaming_text); lia.
  - specialize (IH (streaming_text ++ content)).
    destruct (trace loads (streaming_text ++ content) rest). cbn [fst length] in *. lia.
  - specialize (IH streaming_text). lia.
Qed.

(** X7: a line gives at most one chunk and an empty line gives none: the
    number of chunks never exceeds the number of non-empty lines. *)
Theorem chunks_bounded_by_lines prompt raw src self cs e self' :
  consume loads (for_stream prompt raw (streamed src)) self = Some (cs, e, self') ->
  (length cs <= nonempty_lines src)%nat.
Proof.
  rewrite consume_session. unfold session, streamed, outcome. cbn [ok iter_lines].
  pose proof (trace_count src []) as H.
  destruct (trace loads [] src) as [texts r]. destruct (settle prompt r self).
  intros [= <- _ _]. by rewrite length_map.
Qed.


(** X8: the shape test is exact.  A line gives the fragment [content]
    when, and only when, it decodes to a list of exactly two items whose
    second is the string [content] and whose first is equal to 3: the
    [int] 3 or a [float] that rounds to 3.0, never a boolean. *)
Theorem fragment_iff_tagged_pair line content :
  (try_line loads line = inr (Some content) <->
   exists first, loads line = inr (JArr [first; JStr content]) /\ eq_3 first = true) /\
  (forall first, eq_3 first = true <->
     first = JInt 3 \/ exists f, first = JFloat f /\ float_is_3 f = true).
Proof.
  split; [apply try_line_fragment|].
  intros first. split.
  - destruct first as [|[]|z|f| | |]; cbn [eq_3]; try discriminate.
    + intros H%Z.eqb_eq. left. by subst.
    + intros H. right. eauto.
  - intros [->|(f & -> & H)]; [reflexivity|exact H].
Qed.


(** X17: [last_response] outlives a failure.  On a new object
    [get_message(self.last_response)] raises [KeyError]; after a session
    that ended normally it gives the final text of that session, and it
    still gives that text after a later session that failed. *)
Theorem last_response_survives_failure prompt1 raw1 world1 prompt2 raw2 world2
    self cs1 self1 cs2 e self2 :
  consume loads (for_stream prompt1 raw1 world1) self = Some (cs1, Returned, self1) ->
  consume loads (for_stream prompt2 raw2 world2) self1 = Some (cs2, Raised e, self2) ->
  get_message (last_response fresh) = inl (KeyError (str "'text'")) /\
  get_message (last_response self1) = inr (concat (map content_of cs1)) /\
  get_message (last_response self2) = inr (concat (map content_of cs1)).
Proof.
  intros H1 H2.
  destruct (session_ends loads prompt1 raw1 world1 self) as (c1 & e1 & s1 & Hc1 & Hend1).
  rewrite H1 in Hc1. injection Hc1 as <- <- <-. destruct Hend1 as [Hlr _].
  destruct (session_ends loads prompt2 raw2 world2 self1) as (c2 & e2 & s2 & Hc2 & Hend2).
  rewrite H2 in Hc2. injection Hc2 as <- <- <-. cbn in Hend2. subst self2.
  split; [reflexivity|].
  assert (Hg : get_message (last_response self1) = inr (concat (map content_of cs1))).
  { unfold get_message. by rewrite Hlr, lookup_insert_eq. }
  by split.
Qed.

(** X18: without streaming the raw flag has no effect: [ask] with
    [stream=False] returns the same record, or raises the same exception,
    and leaves the object in the same state whether [raw] is set or not. *)
Theorem raw_ignored_without_stream prompt world self :
  ask loads prompt false true world self = ask loads prompt false false world self /\
  is_Some (ask loads prompt false true world self).
Proof.
  unfold ask, for_non_stream. rewrite !consume_session. unfold session.
  destruct world as [e|response]; [by split|].
  destruct (ok response); [|by split].
  unfold outcome. destruct (trace loads [] (iter_lines response)) as [cs r].
  destruct (settle prompt r self) as [[|x] self']; by split.
Qed.

Lemma trace_raises ls : forall streaming_text cs e0,
  trace loads streaming_text (lines_then ls Exhausted) = (cs, inl e0) ->
  exists line, line ∈ ls /\ try_line loads line = inl e0 /\
               (forall m, e0 <> JSONDecodeError m).
Proof.
  induction ls as [|l ls IH]; intros streaming_text cs e0; cbn [lines_then trace].
  - discriminate.
  - assert (Hrest : forall st cs', trace loads st (lines_then ls Exhausted) = (cs', inl e0) ->
              exists line, line ∈ l :: ls /\ try_line loads line = inl e0 /\
                           (forall m, e0 <> JSONDecodeError m)).
    { intros st cs' H. apply IH in H as (line & Hin & Ht & Hne).
      exists line. split; [apply elem_of_cons; by right|done]. }
    destruct (truthy l); [|apply Hrest].
    destruct (try_line loads l) as [e|[content|]] eqn:Ht; [| |apply Hrest].
    + destruct e; try apply Hrest;
        intros [= _ <-]; (exists l; split; [apply elem_of_cons; by left|done]).
    + destruct (trace loads (streaming_text ++ content) (lines_then ls Exhausted))
        as [cs' r] eqn:Hr.
      intros [= _ ->]. exact (Hrest _ cs' Hr).
Qed.

End StreamFacts.

Lemma failures_are_provider_errors_witness :
  Partial.provider_error
    (FailedToGenerateResponseError
       (str "An unexpected error occurred: Request failed with status code 404: Not Found"))
  = true.
Proof.
  apply (failures_are_provider_errors Json.loads (str "hi") false
           (PostReturns not_found) fresh [] _ fresh).
  reflexivity.
Defined.

Lemma last_response_survives_failure_witness :
  get_message (last_response fresh) = inl (KeyError (str "'text'")) /\
  get_message (last_response
                 {| last_response := <[ str "text" := str "Hello" ]> ∅;
                    conversation := [(str "hi", str "Hello")] |})
  = inr (concat (map content_of [Raw (str "Hello")])) /\
  get_message (last_response
                 {| last_response := <[ str "text" := str "Hello" ]> ∅;
                    conversation := [(str "hi", str "Hello")] |})
  = inr (concat (map content_of [Raw (str "Hello")])).
Proof.
  apply (last_response_survives_failure Json.loads
           (str "hi") true (streamed (lines_then [hello_line] Exhausted))
           (str "again") true (PostReturns not_found)
           fresh [Raw (str "Hello")] _ []
           (FailedToGenerateResponseError
              (str "An unexpected error occurred: Request failed with status code 404: Not Found")));
    vm_compute; reflexivity.
Defined.

Lemma decode_of_concatenation_witness :
  exists self',
    consume Json.loads
      (for_stream (str "hi") true
         (streamed (lines_then ([hello_line] ++ [world_line]) Exhausted))) fresh
    = Some ([Raw (str "Hello")] ++ [Raw (str " world")], Returned, self') /\
    last_response self' !! str "text"
    = Some (concat (map content_of [Raw (str "Hello")])
              ++ concat (map content_of [Raw (str " world")])).
Proof.
  apply (decode_of_concatenation Json.loads (str "hi") true [hello_line] [world_line]
           fresh [Raw (str "Hello")]
           {| last_response := <[ str "text" := str "Hello" ]> ∅;
              conversation := [(str "hi", str "Hello")] |}
           [Raw (str " world")] Returned
           {| last_response := <[ str "text" := str " world" ]> ∅;
              conversation := [(str "hi", str " world")] |});
    vm_compute; reflexivity.
Defined.

Lemma chunks_bounded_by_lines_witness :
  (length [Raw (str "Hello"); Raw (str " world")]
   <= Partial.nonempty_lines (lines_then hello_lines Exhausted))%nat.
Proof.
  apply (chunks_bounded_by_lines Json.loads (str "hi") true
           (lines_then hello_lines Exhausted) fresh
           [Raw (str "Hello"); Raw (str " world")] Returned
           {| last_response := <[ str "text" := str "Hello world" ]> ∅;
              conversation := [(str "hi", str "Hello world")] |}).
  vm_compute; reflexivity.
Defined.

Lemma fragment_iff_tagged_pair_witness :
  exists first,
    Json.loads hello_line = inr (JArr [first; JStr (str "Hello")]) /\ eq_3 first = true.
Proof.
  apply (proj1 (proj1 (fragment_iff_tagged_pair Json.loads hello_line (str "Hello")))).
  vm_compute; reflexivity.
Defined.

(** ** [for_stream] over lists of lines *)

(** X9: over a list of lines the decode fails because of one line, and
    for three reasons only: [json.loads] raises on it something that is
    not a [JSONDecodeError] (as the interpreter does beyond its limits on
    digits and on nesting), or the line decodes to [null], a boolean or a
    number ([len] raises [TypeError]), or it decodes to an object of two
    keys ([data[0]] raises [KeyError]).  In the first case the error is
    what the [except] clauses make of that exception; in the other two it
    is [FailedToGenerateResponseError] with the message of the
    [TypeError] or of the [KeyError]. *)
Theorem static_lines_failures loads prompt raw ls self cs e self' :
  consume loads (for_stream prompt raw (streamed (lines_then ls Exhausted))) self
  = Some (cs, Raised e, self') ->
  exists line,
    line ∈ ls /\
    ((exists e0, loads line = inl e0 /\ (forall m, e0 <> JSONDecodeError m) /\
                 e = handle e0) \/
     (exists data, loads line = inr data /\ Partial.scalar data = true /\
        e = FailedToGenerateResponseError
              (str "An unexpected error occurred: "
                 ++ str "object of type '" ++ Json.type_name data
                 ++ str "' has no len()")) \/
     (exists data, loads line = inr data /\ Partial.two_keys data = true /\
        e = FailedToGenerateResponseError (str "An unexpected error occurred: 0"))).
Proof.
  rewrite consume_session. unfold session, streamed, outcome. cbn [ok iter_lines].
  destruct (trace loads [] (lines_then ls Exhausted)) as [texts [e0|final]] eqn:Ht.
  2:{ unfold settle. rewrite finalize_ok. discriminate. }
  cbn [settle]. intros [= _ <- _].
  apply trace_raises in Ht as (line & Hin & Hline & Hne).
  exists line. split; [exact Hin|].
  destruct (loads line) as [e1|data] eqn:Hl.
  { left. exists e1. unfold try_line in Hline. rewrite Hl in Hline.
    cbn [bind] in Hline. injection Hline as ->. by split. }
  right.
  pose proof (try_line_raises loads line data Hl) as Hr.
  assert (Hok : (exists r, try_line loads line = inr r) -> False).
  { intros [r Hr']. rewrite Hr' in Hline. discriminate. }
  destruct data as [| | | |s|items|items]; try (by destruct (Hok Hr));
    try (rewrite Hr in Hline; injection Hline as <-; left; eexists;
         split; [reflexivity|]; split; reflexivity).
  destruct items as [|a [|b [|c items]]]; try (by destruct (Hok Hr)).
  rewrite Hr in Hline. injection Hline as <-. right. eexists.
  split; [reflexivity|]. split; reflexivity.
Qed.

Lemma static_lines_failures_witness :
  exists line,
    line ∈ null_lines /\
    ((exists e0, Json.loads line = inl e0 /\ (forall m, e0 <> JSONDecodeError m) /\
                 FailedToGenerateResponseError
                   (str "An unexpected error occurred: object of type 'NoneType' has no len()")
                 = handle e0) \/
     (exists data, Json.loads line = inr data /\ Partial.scalar data = true /\
        FailedToGenerateResponseError
          (str "An unexpected error occurred: object of type 'NoneType' has no len()")
        = FailedToGenerateResponseError
            (str "An unexpected error occurred: "
               ++ str "object of type '" ++ Json.type_name data
               ++ str "' has no len()")) \/
     (exists data, Json.loads line = inr data /\ Partial.two_keys data = true /\
        FailedToGenerateResponseError
          (str "An unexpected error occurred: object of type 'NoneType' has no len()")
        = FailedToGenerateResponseError (str "An unexpected error occurred: 0"))).
Proof.
  apply (static_lines_failures Json.loads (str "hi") false null_lines fresh
           [Wrapped {[ str "text" := str "Hello" ]}] _ fresh).
  vm_compute; reflexivity.
Defined.

Lemma skip_ws_blank s : forallb is_ws s = true -> skip_ws s = [].
Proof.
  induction s as [|c s IH]; [reflexivity|]. cbn [forallb skip_ws].
  intros [Hc Hs]%andb_prop. rewrite Hc. by apply IH.
Qed.

Lemma decode_blank s : forallb is_ws s = true -> decode s = None.
Proof.
  intros Hb. unfold decode. rewrite (skip_ws_blank s Hb).
  destruct s as [|c s]; [reflexivity|].
  cbn [forallb] in Hb. apply andb_prop in Hb as [Hc _].
  unfold is_ws in Hc.
  repeat (apply orb_prop in Hc as [Hc|Hc]); apply N.eqb_eq in Hc; subst c; reflexivity.
Qed.

(** X10: a line of spaces, tabs, carriage returns or line feeds only is
    skipped like an empty one: it is not empty, so it is handed to
    [json.loads], which rejects it.  The decode with such a line is the
    decode without it. *)
Theorem blank_lines_are_skipped prompt raw pre line post self :
  forallb is_ws line = true ->
  consume Json.loads (for_stream prompt raw (streamed (lines_then pre (Line line post)))) self
  = consume Json.loads (for_stream prompt raw (streamed (lines_then pre post))) self.
Proof.
  intros Hb. rewrite !consume_session.
  unfold session, streamed, outcome. cbn [ok iter_lines].
  rewrite trace_skip_within; [reflexivity|].
  right; left. exists []. apply try_line_decode_error.
  unfold Json.loads. by rewrite (decode_blank line Hb).
Qed.

Lemma blank_lines_are_skipped_witness :
  forallb is_ws (str "   ") = true /\
  consume Json.loads
    (for_stream (str "hi") false
       (streamed (lines_then [hello_line] (Line (str "   ") (Line world_line Exhausted)))))
    fresh
  = consume Json.loads
      (for_stream (str "hi") false
         (streamed (lines_then [hello_line] (Line world_line Exhausted))))
      fresh.
Proof.
  split; [reflexivity|].
  apply (blank_lines_are_skipped (str "hi") false [hello_line] (str "   ")
           (Line world_line Exhausted) fresh).
  reflexivity.
Defined.

(** ** [chat], the optimizer of [ask], [__init__] *)

Section ClientFacts.

Import Client.

Variable loads : pystr -> result json.
Variable gen_complete_prompt : Conversation -> pystr -> pystr.
Variable optimize : pystr -> pystr -> pystr.
Variable genexpr_repr : pystr.

Lemma next_yields g self c g' self' :
  next loads g self = (Yield c, g', self') ->
  exists content,
    c = wrap (g_raw g) content /\ g_raw g' = g_raw g /\ g_prompt g' = g_prompt g.
Proof.
  assert (Hres : forall st src,
            resume loads g st src self = (Yield c, g', self') ->
            exists content,
              c = wrap (g_raw g) content /\ g_raw g' = g_raw g /\ g_prompt g' = g_prompt g).
  { intros st src. unfold resume.
    destruct (loop loads st src) as [content st' rest|st'|e].
    - intros [= <- <- _]. by exists content.
    - destruct (finalize (g_prompt g) st' self) as [[e|] s]; discriminate.
    - discriminate. }
  unfold next. destruct (g_frame g) as [[e|response]|st src|]; try discriminate.
  - destruct (negb (ok response)); [discriminate|apply Hres].
  - apply Hres.
Qed.

Lemma get_message_of_wrap content :
  get_message_of (wrap false content) = inr content.
Proof.
  unfold get_message_of, wrap, get_message. by rewrite lookup_singleton_eq.
Qed.

Lemma chat_running post fuel :
  forall prompt optimizer conversationally inner self cs e st',
  g_raw inner = false ->
  iterate loads fuel inner (state self) = Some (cs, e, st') ->
  chat_iterate loads gen_complete_prompt optimize genexpr_repr post fuel
    {| c_prompt := prompt; c_optimizer := optimizer;
       c_conversationally := conversationally; c_frame := ChatRunning inner |}
    self
  = Some (map content_of cs, e, with_state self st').
Proof.
  induction fuel as [|fuel IH];
    intros prompt optimizer conversationally inner self cs e st' Hraw; [discriminate|].
  cbn [iterate chat_iterate chat_next c_frame]. unfold chat_resume.
  cbn [c_prompt c_optimizer c_conversationally].
  destruct (next loads inner (state self)) as [[ev inner'] st1] eqn:Hn.
  destruct ev as [c| |x].
  - apply next_yields in Hn as (content & -> & Hraw' & _). rewrite Hraw.
    rewrite get_message_of_wrap.
    destruct (iterate loads fuel inner' st1) as [[[cs1 e1] st2]|] eqn:Hi; [|discriminate].
    intros [= <- <- <-].
    rewrite (IH prompt optimizer conversationally inner' (with_state self st1) cs1 e1 st2);
      [|congruence|exact Hi].
    cbn [map]. change (Wrapped {[str "text" := content]}) with (wrap false content).
    by rewrite content_of_wrap.
  - by intros [= <- <- <-].
  - by intros [= <- <- <-].
Qed.

Lemma chat_consume_spec post prompt optimizer conversationally self :
  match ask_stream gen_complete_prompt optimize genexpr_repr post
          prompt false optimizer conversationally self with
  | (inr g, self1) =>
      exists cs e st',
        consume loads g (state self1) = Some (cs, e, st') /\
        chat_consume loads gen_complete_prompt optimize genexpr_repr post
          (chat_stream prompt optimizer conversationally) self
        = Some (map content_of cs, e, with_state self1 st')
  | (inl x, self1) =>
      chat_consume loads gen_complete_prompt optimize genexpr_repr post
        (chat_stream prompt optimizer conversationally) self
      = Some ([], Raised x, self1)
  end.
Proof.
  unfold chat_consume, chat_enough, chat_stream. cbn [c_frame c_prompt c_optimizer c_conversationally].
  destruct (ask_stream gen_complete_prompt optimize genexpr_repr post
              prompt false optimizer conversationally self) as [[x|g] self1] eqn:Hask.
  - cbn [chat_iterate chat_next c_frame c_prompt c_optimizer c_conversationally].
    by rewrite Hask.
  - assert (Hraw : g_raw g = false).
    { unfold ask_stream in Hask.
      destruct (prepare gen_complete_prompt optimize genexpr_repr
                  prompt optimizer conversationally self) as [[?|?] ?];
        [discriminate|]. by injection Hask as <- _. }
    assert (Hg : exists prompt' world, g = for_stream prompt' false world).
    { unfold ask_stream in Hask.
      destruct (prepare gen_complete_prompt optimize genexpr_repr
                  prompt optimizer conversationally self) as [[?|?] ?];
        [discriminate|]. injection Hask as <- _. eauto. }
    destruct Hg as (prompt' & world & ->).
    pose proof (consume_session loads prompt' false world (state self1)) as Hc.
    destruct (session loads prompt' false world (state self1)) as [[cs e] st'].
    exists cs, e, st'. split; [exact Hc|].
    unfold consume in Hc.
    destruct (enough (for_stream prompt' false world)) as [|k]; [discriminate|].
    transitivity
      (chat_iterate loads gen_complete_prompt optimize genexpr_repr post (S k)
         {| c_prompt := prompt; c_optimizer := optimizer;
            c_conversationally := conversationally;
            c_frame := ChatRunning (for_stream prompt' false world) |} self1).
    + cbn [chat_iterate chat_next c_frame c_prompt c_optimizer c_conversationally].
      rewrite Hask. reflexivity.
    + by apply chat_running.
Qed.

(** X11: [chat] with [stream=True] delivers the text of every chunk that
    [ask] with [stream=True] yields, in order, and ends as that generator
    ends; an optimizer that is not found is reported by the first [next],
    not by the call of [chat]. *)
Theorem chat_yields_texts post prompt optimizer conversationally self :
  match ask_stream gen_complete_prompt optimize genexpr_repr post
          prompt false optimizer conversationally self with
  | (inr g, self1) =>
      exists cs e st',
        consume loads g (state self1) = Some (cs, e, st') /\
        chat_consume loads gen_complete_prompt optimize genexpr_repr post
          (chat_stream prompt optimizer conversationally) self
        = Some (map content_of cs, e, with_state self1 st')
  | (inl x, self1) =>
      chat_consume loads gen_complete_prompt optimize genexpr_repr post
        (chat_stream prompt optimizer conversationally) self
      = Some ([], Raised x, self1)
  end.
Proof. apply chat_consume_spec. Qed.

(** X12: when the service answers the two requests alike, [chat] with
    [stream=False] returns the concatenation of what [chat] with
    [stream=True] delivers, or raises the exception that ends that
    iteration; the object is left in the same state. *)
Theorem chat_complete_joins_stream post prompt optimizer conversationally self :
  (forall m sy u, post {| p_model := m; p_system := sy; p_user := u; p_stream := true |}
                  = post {| p_model := m; p_system := sy; p_user := u; p_stream := false |}) ->
  exists ms e self',
    chat_consume loads gen_complete_prompt optimize genexpr_repr post
      (chat_stream prompt optimizer conversationally) self
    = Some (ms, e, self') /\
    chat_complete loads gen_complete_prompt optimize genexpr_repr post
      prompt optimizer conversationally self
    = Some (match e with
            | Returned => inr (concat ms)
            | Raised x => inl x
            end, self').
Proof.
  intros Hpost.
  pose proof (chat_consume_spec post prompt optimizer conversationally self) as Hs.
  unfold chat_complete, ask_complete. unfold ask_stream in Hs.
  destruct (prepare gen_complete_prompt optimize genexpr_repr
              prompt optimizer conversationally self) as [[x|cp] self1].
  - by exists [], (Raised x), self1.
  - destruct Hs as (cs & e & st' & Hc & Hchat).
    exists (map content_of cs), e, (with_state self1 st'). split; [exact Hchat|].
    unfold for_non_stream, payload_of in *. rewrite <- Hpost, Hc.
    destruct (session_ends loads prompt false
                (post {| p_model := model self1; p_system := system_prompt self1;
                         p_user := cp; p_stream := true |}) (state self1))
      as (cs' & e' & st'' & Hc' & Hend).
    rewrite Hc in Hc'. injection Hc' as <- <- <-.
    destruct e as [|x]; [|reflexivity].
    destruct Hend as [Hlr _]. unfold ret, get_message. rewrite Hlr, lookup_insert_eq.
    reflexivity.
Qed.


Lemma contains_found x l : forall rest,
  contains x l = (true, rest) -> exists pre, l = pre ++ x :: rest /\ x ∉ pre.
Proof.
  induction l as [|y l IH]; intros rest; cbn [contains]; [discriminate|].
  case_bool_decide as Hy.
  - intros [= <-]. subst y. exists []. split; [reflexivity|]. apply not_elem_of_nil.
  - intros H. apply IH in H as (pre & -> & Hpre). exists (y :: pre).
    split; [reflexivity|]. rewrite elem_of_cons. intros [->|Hin]; [done|by apply Hpre].
Qed.

Lemma contains_missing x l : x ∉ l -> contains x l = (false, []).
Proof.
  induction l as [|y l IH]; [reflexivity|]. rewrite elem_of_cons. intros Hn.
  cbn [contains]. case_bool_decide as Hy; [destruct Hn; by left|].
  apply IH. intros Hin. apply Hn. by right.
Qed.

(** X13: an optimizer can be used once.  The lookup runs through the
    generator [__available_optimizers], which does not start again: after
    a lookup that finds [name], [name] and every optimizer listed before it
    are not found any more, and the lookup that misses them leaves nothing
    for later calls. *)
Theorem optimizer_is_spent prompt name conversationally self text self1 :
  truthy name = true ->
  NoDup (available_optimizers self) ->
  prepare gen_complete_prompt optimize genexpr_repr
    prompt (Some name) conversationally self = (inr text, self1) ->
  exists pre,
    available_optimizers self = pre ++ name :: available_optimizers self1 /\
    forall y prompt' conversationally',
      truthy y = true -> y = name \/ y ∈ pre ->
      prepare gen_complete_prompt optimize genexpr_repr
        prompt' (Some y) conversationally' self1
      = (inl (Exception (str "Optimizer is not one of " ++ genexpr_repr)),
         with_optimizers self1 []).
Proof.
  intros Hname Hnd. unfold prepare. rewrite Hname.
  destruct (contains name (available_optimizers self)) as [[|] rest] eqn:Hc;
    [|discriminate].
  intros [= _ <-]. cbn [available_optimizers with_optimizers].
  apply contains_found in Hc as (pre & Hl & Hpre).
  exists pre. split; [exact Hl|].
  intros y prompt' conversationally' Hy Hin. rewrite Hy.
  rewrite contains_missing; [reflexivity|].
  rewrite Hl in Hnd. apply NoDup_app in Hnd as (_ & Hdisj & Hnd').
  apply NoDup_cons in Hnd' as [Hnot _].
  destruct Hin as [->|Hin]; [exact Hnot|].
  intros Hrest. apply (Hdisj y Hin). apply elem_of_cons. by right.
Qed.


(** X14: an optimizer that is not found makes [ask] raise at once, in
    both modes and whatever the service would answer: no request is made,
    [last_response] and the history are untouched, and the generator of
    optimizer names is left empty.  [chat] with [stream=True] reports the
    same exception at its first [next]. *)
Theorem unknown_optimizer_raises post prompt stream raw name conversationally self :
  truthy name = true ->
  name ∉ available_optimizers self ->
  let failure := Exception (str "Optimizer is not one of " ++ genexpr_repr) in
  Client.ask loads gen_complete_prompt optimize genexpr_repr post
    prompt stream raw (Some name) conversationally self
  = Some (inl failure, with_optimizers self []) /\
  chat_consume loads gen_complete_prompt optimize genexpr_repr post
    (chat_stream prompt (Some name) conversationally) self
  = Some ([], Raised failure, with_optimizers self []).
Proof.
  intros Hname Hno. cbv zeta.
  assert (Hp : forall c, prepare gen_complete_prompt optimize genexpr_repr
                 prompt (Some name) c self
               = (inl (Exception (str "Optimizer is not one of " ++ genexpr_repr)),
                  with_optimizers self [])).
  { intros c. unfold prepare. by rewrite Hname, (contains_missing name _ Hno). }
  split.
  - unfold Client.ask, ask_stream, ask_complete. rewrite Hp. by destruct stream.
  - pose proof (chat_consume_spec post prompt (Some name) conversationally self) as Hs.
    unfold ask_stream in Hs. rewrite Hp in Hs. exact Hs.
Qed.


(** X15: the history feeds the next request.  After an [ask] with
    [stream=False] that returns, the prompt of the next request is made
    by [gen_complete_prompt] from the history extended with that prompt
    and the text returned. *)
Theorem history_feeds_next_prompt post prompt raw conversationally self response self1 :
  ask_complete loads gen_complete_prompt optimize genexpr_repr post
    prompt raw None conversationally self = Some (inr response, self1) ->
  exists final,
    response !! str "text" = Some final /\
    forall post' prompt' raw' conversationally',
      ask_stream gen_complete_prompt optimize genexpr_repr post'
        prompt' raw' None conversationally' self1
      = (inr (for_stream prompt' raw'
                (post' {| p_model := model self; p_system := system_prompt self;
                          p_user := gen_complete_prompt
                                      (conversation (state self) ++ [(prompt, final)])
                                      prompt';
                          p_stream := true |})),
         self1).
Proof.
  unfold ask_complete, ask_stream. cbn [prepare]. unfold for_non_stream, ret.
  set (world := post (payload_of self (gen_complete_prompt (conversation (state self)) prompt) false)).
  destruct (session_ends loads prompt raw world (state self))
    as (cs & e & st' & Hc & Hend).
  rewrite Hc. destruct e as [|x]; [|discriminate].
  intros [= <- <-]. destruct Hend as [Hlr Hconv].
  exists (concat (map content_of cs)). split; [by rewrite Hlr, lookup_insert_eq|].
  intros post' prompt' raw' conversationally'.
  unfold payload_of. cbn [state model system_prompt with_state]. by rewrite Hconv.
Qed.


End ClientFacts.

Section ClientWitnesses.

Import Client.

Lemma chat_complete_joins_stream_witness :
  exists ms e self',
    chat_consume Json.loads plain_prompt tagging [] hello_service
      (chat_stream (str "hi") None false) a_provider
    = Some (ms, e, self') /\
    chat_complete Json.loads plain_prompt tagging [] hello_service
      (str "hi") None false a_provider
    = Some (match e with
            | Returned => inr (concat ms)
            | Raised x => inl x
            end, self').
Proof.
  apply (chat_complete_joins_stream Json.loads plain_prompt tagging [] hello_service
           (str "hi") None false a_provider).
  reflexivity.
Defined.

Lemma optimizer_is_spent_witness :
  exists pre,
    available_optimizers a_provider
    = pre ++ str "shell_command" :: available_optimizers (with_optimizers a_provider []) /\
    forall y prompt' conversationally',
      truthy y = true -> y = str "shell_command" \/ y ∈ pre ->
      prepare plain_prompt tagging [] prompt' (Some y) conversationally'
        (with_optimizers a_provider [])
      = (inl (Exception (str "Optimizer is not one of " ++ [])),
         with_optimizers (with_optimizers a_provider []) []).
Proof.
  apply (optimizer_is_spent plain_prompt tagging [] (str "hi") (str "shell_command")
           false a_provider (str "shell_command: hi") (with_optimizers a_provider [])).
  - reflexivity.
  - apply NoDup_cons. split.
    + intros H. apply elem_of_cons in H as [H|H]; [vm_compute in H; discriminate H|].
      by apply elem_of_nil in H.
    + apply NoDup_cons. split; [apply not_elem_of_nil|apply NoDup_nil; exact I].
  - reflexivity.
Defined.

Lemma unknown_optimizer_raises_witness :
  Client.ask Json.loads plain_prompt tagging [] hello_service
    (str "hi") true false (Some (str "poem")) false a_provider
  = Some (inl (Exception (str "Optimizer is not one of " ++ [])),
          with_optimizers a_provider []).
Proof.
  apply (unknown_optimizer_raises Json.loads plain_prompt tagging [] hello_service
           (str "hi") true false (str "poem") false a_provider).
  - reflexivity.
  - intros H. apply elem_of_cons in H as [H|H]; [vm_compute in H; discriminate H|].
    apply elem_of_cons in H as [H|H]; [vm_compute in H; discriminate H|].
    by apply elem_of_nil in H.
Defined.

Lemma history_feeds_next_prompt_witness :
  exists final,
    (<[ str "text" := str "Hello world" ]> ∅ : pydict) !! str "text" = Some final /\
    forall post' prompt' raw' conversationally',
      ask_stream plain_prompt tagging [] post' prompt' raw' None conversationally'
        (with_state a_provider
           {| last_response := <[ str "text" := str "Hello world" ]> ∅;
              conversation := [(str "hi", str "Hello world")] |})
      = (inr (for_stream prompt' raw'
                (post' {| p_model := model a_provider;
                          p_system := system_prompt a_provider;
                          p_user := plain_prompt
                                      (conversation (state a_provider)
                                         ++ [(str "hi", final)]) prompt';
                          p_stream := true |})),
         with_state a_provider
           {| last_response := <[ str "text" := str "Hello world" ]> ∅;
              conversation := [(str "hi", str "Hello world")] |}).
Proof.
  apply (history_feeds_next_prompt Json.loads plain_prompt tagging [] hello_service
           (str "hi") false false a_provider).
  vm_compute; reflexivity.
Defined.

End ClientWitnesses.

(** X16: [__init__] accepts the one model of [AVAILABLE_MODELS] and
    refuses every other with a [ValueError] that names it, before anything
    else is looked at.  With the model accepted and no [act], the object
    starts with an empty [last_response] and no history, sends the key as
    [Bearer] token and keeps the user agent drawn for it; an [act] that is
    not found makes the construction fail. *)
Theorem init_checks_model user_agent names get_act api_key intro act model
    system_prompt class_intro :
  (model <> str "granite-3-8b-instruct" ->
     Client.init user_agent names get_act api_key intro act model system_prompt class_intro
     = inl (ValueError (str "Invalid model: " ++ model
                          ++ str ". Choose from: ['granite-3-8b-instruct']"))) /\
  (model = str "granite-3-8b-instruct" ->
     match act with
     | Some a =>
         if truthy a then
           forall e, get_act a = inl e ->
             Client.init user_agent names get_act api_key intro act model
               system_prompt class_intro = inl e
         else True
     | None =>
         exists p,
           Client.init user_agent names get_act api_key intro act model
             system_prompt class_intro
           = inr (p, Client.or_else intro class_intro) /\
           Client.state p = fresh /\
           Client.model p = model /\
           Client.system_prompt p = system_prompt /\
           Client.available_optimizers p = names /\
           Client.headers p !! str "Authorization" = Some (str "Bearer " ++ api_key) /\
           Client.headers p !! str "user-agent" = Some user_agent
     end).
Proof.
  unfold Client.init, Client.AVAILABLE_MODELS. split.
  - intros Hm. rewrite bool_decide_eq_false_2; [reflexivity|].
    intros H. apply elem_of_cons in H as [H|H]; [done|]. by apply elem_of_nil in H.
  - intros ->. rewrite bool_decide_eq_true_2 by (apply elem_of_cons; by left).
    destruct act as [a|].
    + destruct (truthy a); [|exact I]. intros e ->. reflexivity.
    + eexists. split; [reflexivity|]. cbn [Client.state Client.model Client.system_prompt
        Client.available_optimizers Client.headers].
      repeat split; vm_compute; reflexivity.
Qed.

Lemma init_checks_model_witness :
  Client.init (str "Mozilla/5.0") [str "code"; str "shell_command"]
    (fun a => inl (KeyError a)) (str "key") None None (str "granite-13b")
    (str "You are a helpful AI assistant.") []
  = inl (ValueError (str "Invalid model: granite-13b. Choose from: ['granite-3-8b-instruct']")).
Proof.
  apply (proj1 (init_checks_model (str "Mozilla/5.0") [str "code"; str "shell_command"]
                  (fun a => inl (KeyError a)) (str "key") None None (str "granite-13b")
                  (str "You are a helpful AI assistant.") [])).
  intros H. vm_compute in H. discriminate H.
Defined.

